(** * Umbrella: dependency injection and the ordered initializer pipeline

    A shallow embedding of the injector (lib/injector.js), the utilities
    (lib/utilities.js), the initializer pipeline (lib/initializer.js) and of
    the earlier revisions kept in lib/util.js and lib/umbrella.js, followed by
    the properties the specification states about them. *)

From Stdlib Require Import ZArith Ascii String List Lia.
From stdpp Require Import base option list strings pretty gmap.

Local Open Scope string_scope.
Local Open Scope Z_scope.
Local Open Scope list_scope.
#[local] Set Warnings "-register-all".

(** ** JavaScript values, as far as the program observes them *)

Module JS.

(** Objects are structural; numbers are the integers and NaN (the only
    numbers the program itself computes are array lengths).  A function
    carries its source text (what [toString] prints), the name of its
    behaviour in the code table and its own properties.  [VWrapper] is the
    closure the injector returns; [VCallback] is the completion callback a
    pipeline step is handed. *)
Inductive value : Type :=
| VUndefined
| VNull
| VBool (b : bool)
| VNum (n : Z)
| VNaN
| VStr (s : string)
| VArray (elems : list value)
| VObject (fields : list (string * value))
| VError (name message : string)
| VFunction (source body : string) (props : list (string * value))
| VWrapper (func context : value) (injectArgs : list value) (exParamLength : nat)
| VCallback.

(** ToBoolean. *)
Definition truthy (v : value) : bool :=
  match v with
  | VUndefined | VNull | VNaN => false
  | VBool b => b
  | VNum n => negb (n =? 0)
  | VStr s => negb (String.eqb s "")
  | _ => true
  end.

(** [typeof v === 'function'] and [typeof v === 'undefined']. *)
Definition is_function (v : value) : bool :=
  match v with
  | VFunction _ _ _ | VWrapper _ _ _ _ | VCallback => true
  | _ => false
  end.

Definition is_undefined (v : value) : bool :=
  match v with VUndefined => true | _ => false end.

(** [v === null]. *)
Definition is_null (v : value) : bool :=
  match v with VNull => true | _ => false end.

(** [Array.isArray]. *)
Definition isArray (v : value) : bool :=
  match v with VArray _ => true | _ => false end.

(** [a || b]. *)
Definition or_else (a b : value) : value := if truthy a then a else b.

Fixpoint assoc (k : string) (fields : list (string * value)) : option value :=
  match fields with
  | [] => None
  | (k', v) :: rest => if String.eqb k k' then Some v else assoc k rest
  end.

(** Outcome of an evaluation: a value or a thrown exception. *)
Inductive result (A : Type) : Type :=
| Ok (a : A)
| Throw (e : value).
Arguments Ok {A} a.
Arguments Throw {A} e.

Definition TypeError (message : string) : value := VError "TypeError" message.
Definition Error (message : string) : value := VError "Error" message.

(** The mutable state the program runs in: the two component objects the
    registry's getters close over, the console, the completion signals fired
    so far and whatever else the application keeps. *)
Record world : Type := World {
  externalComponents : gmap string value;
  internalComponents : gmap string value;
  console : list string;
  signals : list value;
  heap : gmap string value
}.

Definition M (A : Type) : Type := world → result A * world.

Definition ret {A} (a : A) : M A := λ w, (Ok a, w).
Definition throw {A} (e : value) : M A := λ w, (Throw e, w).
Definition bind {A B} (m : M A) (k : A → M B) : M B :=
  λ w, match m w with
       | (Ok a, w') => k a w'
       | (Throw e, w') => (Throw e, w')
       end.
(** [try { m } catch (err) { h err }]. *)
Definition try_catch {A} (m : M A) (h : value → M A) : M A :=
  λ w, match m w with
       | (Ok a, w') => (Ok a, w')
       | (Throw e, w') => h e w'
       end.
Definition lift {A} (r : result A) : M A := λ w, (r, w).

Notation "x <~ m ;; k" := (bind m (λ x, k))
  (at level 100, m at next level, right associativity).
Notation "m ;;; k" := (bind m (λ _, k))
  (at level 100, right associativity).

Definition console_warn (msg : string) : M value :=
  λ w, (Ok VUndefined,
        World (externalComponents w) (internalComponents w)
              (console w ++ [msg]) (signals w) (heap w)).

(** Firing the completion callback with [err] as first argument. *)
Definition signal (err : value) : M value :=
  λ w, (Ok VUndefined,
        World (externalComponents w) (internalComponents w)
              (console w) (signals w ++ [err]) (heap w)).

Definition clear_signals (w : world) : world :=
  World (externalComponents w) (internalComponents w) (console w) [] (heap w).

(** Property read [v[k]] on a value without accessors. *)
Definition getProp (v : value) (k : string) : result value :=
  match v with
  | VUndefined | VNull =>
      Throw (TypeError ("Cannot read property '" +:+ k +:+ "' of " +:+
                        (if is_null v then "null" else "undefined")))
  | VObject fields | VFunction _ _ fields => Ok (default VUndefined (assoc k fields))
  | VWrapper _ _ _ n =>
      Ok (if String.eqb k "exParamLength" then VNum (Z.of_nat n) else VUndefined)
  | _ => Ok VUndefined
  end.

(** The text of the closure the injector returns (lib/injector.js). *)
Definition wrapper_source : string :=
"function() {
            // arguments are here expected to be the additional arguments to the middleware
            // The middleware wrapper function is expected to be called at application initialization time
            return func.apply(context, injectArgs.concat([].slice.call(arguments)));
          }".

Definition callback_source : string := "function (err) { [completion callback] }".

(** [func.toString()] for a function; anything else has no function text. *)
Definition toString (func : value) : option string :=
  match func with
  | VFunction source _ _ => Some source
  | VWrapper _ _ _ _ => Some wrapper_source
  | VCallback => Some callback_source
  | _ => None
  end.

(** An own property of an object: plain data, or one of the two getters
    [createInjectionComponents] installs (each closes over a key). *)
Inductive property : Type :=
| Data (v : value)
| ExternalGetter (key : string)
| InternalGetter (key : string).

Definition too_early : value :=
  Error "umbrella internal component %s accessed too early when not yet initialized.".

(** A built-in function, by the name it prints. *)
Definition native (name behaviour : string) : value :=
  VFunction ("function " +:+ name +:+ "() { [native code] }") behaviour [].

(** The properties of [Object.prototype], which every plain object inherits
    (the registry is made as [{}], and so are the registries the tests hand
    to the injector). *)
Definition object_prototype : list (string * value) :=
  [("constructor", native "Object" "Object");
   ("toString", native "toString" "Object.prototype.toString");
   ("toLocaleString", native "toLocaleString" "Object.prototype.toLocaleString");
   ("valueOf", native "valueOf" "Object.prototype.valueOf");
   ("hasOwnProperty", native "hasOwnProperty" "Object.prototype.hasOwnProperty");
   ("isPrototypeOf", native "isPrototypeOf" "Object.prototype.isPrototypeOf");
   ("propertyIsEnumerable",
    native "propertyIsEnumerable" "Object.prototype.propertyIsEnumerable");
   ("__defineGetter__", native "__defineGetter__" "Object.prototype.__defineGetter__");
   ("__defineSetter__", native "__defineSetter__" "Object.prototype.__defineSetter__");
   ("__lookupGetter__", native "__lookupGetter__" "Object.prototype.__lookupGetter__");
   ("__lookupSetter__", native "__lookupSetter__" "Object.prototype.__lookupSetter__")].

(** What a plain object without own property [k] gives for [obj[k]]: the
    property of [Object.prototype], the prototype itself for [__proto__]. *)
Definition inherited (k : string) : option value :=
  if String.eqb k "__proto__" then Some (VObject object_prototype)
  else assoc k object_prototype.

(** Property read [obj[k]] on a plain object with accessors: the own
    property first, then the prototype; a property found in neither reads as
    [undefined]. *)
Definition read (obj : gmap string property) (w : world) (k : string) : result value :=
  match obj !! k with
  | None => Ok (default VUndefined (inherited k))
  | Some (Data v) => Ok v
  | Some (ExternalGetter key) => Ok (default VUndefined (externalComponents w !! key))
  | Some (InternalGetter key) =>
      let v := default VUndefined (internalComponents w !! key) in
      if is_null v then Throw too_early else Ok v
  end.

Definition get (obj : gmap string property) (k : string) : M value :=
  λ w, (read obj w k, w).

(** [Object.defineProperty(obj, k, {get: ..., configurable: false})]: a
    property that is already there cannot be redefined. *)
Definition defineProperty (obj : gmap string property) (k : string) (p : property)
  : result (gmap string property) :=
  match obj !! k with
  | Some _ => Throw (TypeError ("Cannot redefine property: " +:+ k))
  | None => Ok (<[k := p]> obj)
  end.

(** [Object.keys]; the names come in the order of the map. *)
Definition keys (o : gmap string value) : list string := (map_to_list o).*1.

Section Apply.
(** The behaviour of the application's own functions, by name: receiver,
    arguments, state in; value or exception, state out. *)
Variable code : string → value → list value → M value.

(** [f.apply(this, args)]. *)
Fixpoint apply (f : value) (this : value) (args : list value) : M value :=
  match f with
  | VFunction _ body _ => code body this args
  | VWrapper func context injectArgs _ => apply func context (injectArgs ++ args)
  | VCallback => signal (hd VUndefined args)
  | _ => throw (TypeError "not a function")
  end.
End Apply.

End JS.
Import JS.

(** ** lib/utilities.js *)

Module Utilities.

(** Code units that the regular expression class \s and [trim] treat as
    white space, among the 8-bit ones. *)
Definition is_space (c : ascii) : bool :=
  let n := nat_of_ascii c in
  ((9 <=? n) && (n <=? 13) || (n =? 32) || (n =? 160))%nat.

(** Line terminators, which [.] does not match. *)
Definition is_line_terminator (c : ascii) : bool :=
  let n := nat_of_ascii c in ((n =? 10) || (n =? 13))%nat.

Fixpoint skip_spaces (s : string) : string :=
  match s with
  | String c rest => if is_space c then skip_spaces rest else s
  | EmptyString => s
  end.

Fixpoint strip_prefix (p s : string) : option string :=
  match p, s with
  | EmptyString, _ => Some s
  | String a p', String b s' => if Ascii.eqb a b then strip_prefix p' s' else None
  | String _ _, EmptyString => None
  end.

(** The group [(.*?)] followed by a closing parenthesis: the shortest run of
    characters other than line terminators up to the first closing
    parenthesis. *)
Fixpoint up_to_paren (s : string) : option string :=
  match s with
  | EmptyString => None
  | String c rest =>
      if Ascii.eqb c ")" then Some EmptyString
      else if is_line_terminator c then None
      else String c <$> up_to_paren rest
  end.

(** [s.match(/^\s*function\s*?\((.*?)\)/)], reduced to its first group:
    [None] when the text does not match. *)
Definition match_signature (s : string) : option string :=
  rest ← strip_prefix "function" (skip_spaces s);
  match skip_spaces rest with
  | String "(" params => up_to_paren params
  | _ => None
  end.

Fixpoint drop_trailing_spaces (s : string) : string :=
  match s with
  | EmptyString => EmptyString
  | String c rest =>
      match drop_trailing_spaces rest with
      | EmptyString => if is_space c then EmptyString else String c EmptyString
      | rest' => String c rest'
      end
  end.

Definition trim (s : string) : string := drop_trailing_spaces (skip_spaces s).

(** [s.split(',')]. *)
Fixpoint split_comma (s : string) : list string :=
  match s with
  | EmptyString => [EmptyString]
  | String c rest =>
      if Ascii.eqb c "," then EmptyString :: split_comma rest
      else match split_comma rest with
           | piece :: pieces => String c piece :: pieces
           | [] => [String c EmptyString]
           end
  end.

(** [getFunctionParameters]: the parameter names of a function, read off its
    text.  Indexing the failed match raises a TypeError; so does, in this
    model, a value that is not a function. *)
Definition getFunctionParameters (func : value) : result (list string) :=
  match toString func with
  | None => Throw (TypeError "Cannot read property '1' of null")
  | Some text =>
      match match_signature text with
      | None => Throw (TypeError "Cannot read property '1' of null")
      | Some group =>
          let argString := trim group in
          if (String.length argString =? 0)%nat then Ok []
          else Ok (trim <$> split_comma argString)
      end
  end.

(** [args.indexOf(x)]. *)
Fixpoint indexOf (x : string) (args : list string) : Z :=
  match args with
  | [] => -1
  | a :: rest =>
      if String.eqb a x then 0
      else let i := indexOf x rest in if i <? 0 then -1 else i + 1
  end.

(** [args.pop()]: the last element, and what is left of the array. *)
Definition pop (args : list string) : option string * list string :=
  (last args, removelast args).

Definition dquote : string := String (ascii_of_nat 34) EmptyString.

Definition done_warning : string :=
  "using " +:+ dquote +:+ "done" +:+ dquote +:+
  " as parameter name for potential asynchronous function without having it last and " +:+
  "the function will therefore be run synchronously, this might not be the intended and is not recommended.".

(** [determineAsync]: true when the parameters end with 'done'; warns when
    'done' is among the parameters left after the last one was popped. *)
Definition determineAsync (func : value) : M bool :=
  args <~ lift (getFunctionParameters func);;
  let '(isAsync, args) :=
    match args with
    | [] => (false, args)
    | _ => let '(last, args') := pop args in
           (bool_decide (last = Some "done"), args')
    end in
  if negb isAsync && negb (indexOf "done" args + 1 =? 0)
  then console_warn done_warning;;; ret isAsync
  else ret isAsync.

Definition override_warning (key : string) : string :=
  "user provided component " +:+ key +:+ " overrides umbrella internals".

(** First loop of [createInjectionComponents]: a getter per external key. *)
Fixpoint defineExternals (ks : list string) (obj : gmap string property)
  : result (gmap string property) :=
  match ks with
  | [] => Ok obj
  | key :: rest =>
      match defineProperty obj key (ExternalGetter key) with
      | Ok obj' => defineExternals rest obj'
      | Throw e => Throw e
      end
  end.

(** Second loop: a throwing getter per internal key under its $-name, unless
    reading that name already gives something. *)
Fixpoint defineInternals (ks : list string) (obj : gmap string property)
  : M (gmap string property) :=
  match ks with
  | [] => ret obj
  | key :: rest =>
      let actKey := "$" +:+ key in
      v <~ get obj actKey;;
      if is_undefined v
      then obj' <~ lift (defineProperty obj ("$" +:+ key) (InternalGetter key));;
           defineInternals rest obj'
      else console_warn (override_warning key);;; defineInternals rest obj
  end.

(** [createInjectionComponents(externalComponents, internalComponents)]; the
    two objects are the ones the state holds. *)
Definition createInjectionComponents : M (gmap string property) :=
  λ w, (obj <~ lift (defineExternals (keys (externalComponents w)) ∅);;
        defineInternals (keys (internalComponents w)) obj) w.

(** [describeInitializer] of lib/utilities.js. *)
Definition describeInitializer (component : value) : value :=
  VObject [("component", component)].

End Utilities.

(** ** lib/injector.js *)

Module Injector.
Import Utilities.

Definition arity_error : value :=
  Error "dependency injection must invoke, additional parameters not allowed.".

(** The loop of the inject function: the values pushed to [injectArgs]
    before the first parameter whose registry read is falsy. *)
Fixpoint scan (injectComponents : gmap string property) (args : list string)
  : M (list value) :=
  match args with
  | [] => ret []
  | a :: rest =>
      v <~ get injectComponents a;;
      if truthy v
      then v' <~ get injectComponents a;;
           vs <~ scan injectComponents rest;;
           ret (v' :: vs)
      else ret []
  end.

Section Create.
Variable code : string → value → list value → M value.

(** [create(context, injectComponents)(func, mustInvoke)]. *)
Definition create (context : value) (injectComponents : gmap string property)
  (func mustInvoke : value) : M value :=
  args <~ lift (getFunctionParameters func);;
  injectArgs <~ scan injectComponents args;;
  let i := length injectArgs in
  if (i <? length args)%nat
  then if truthy mustInvoke then throw arity_error
       else ret (VWrapper func context injectArgs (length args - i))
  else apply code func context injectArgs.
End Create.

End Injector.

(** ** lib/util.js, the revision before the injector module *)

Module Util.
Import Utilities.

Section Inject.
Variable code : string → value → list value → M value.

(** [injectDependencies(func, umbrella, injectComponents, mustInvoke)]; the
    receiver is [umbrella.app], which bootstrap defines non-writable. *)
Definition injectDependencies (func : value) (umbrella : list (string * value))
  (injectComponents : gmap string property) (mustInvoke : value) : M value :=
  let app := default VUndefined (assoc "app" umbrella) in
  args <~ lift (getFunctionParameters func);;
  injectArgs <~ Injector.scan injectComponents args;;
  let i := length injectArgs in
  if (i <? length args)%nat
  then if truthy mustInvoke then throw Injector.arity_error
       else ret (VWrapper func app injectArgs (length args - i))
  else apply code func app injectArgs.
End Inject.

End Util.

(** ** lib/initializer.js *)

Module Initializer.
Import Utilities.

Definition not_invokable : value :=
  Error ("async initializer not invokable with callback, this may be caused by a " +:+
         dquote +:+ "done" +:+ dquote +:+ "-component colliding with done-callback").

Definition extra_parameters : value :=
  Error "async initializers cannot take additional parameters except done-callback".

Definition incomplete_initializer (component : string) : value :=
  Error ("umbrella encountered an incomplete initializer for " +:+ component +:+
         " component ").

(** [v !== 1]. *)
Definition is_not_one (v : value) : bool :=
  match v with VNum 1 => false | _ => true end.

(** [env === 'production']. *)
Definition is_production (env : value) : bool :=
  match env with VStr s => String.eqb s "production" | _ => false end.

(** ToString, for the string concatenations. *)
Fixpoint to_string (v : value) : string :=
  match v with
  | VUndefined => "undefined"
  | VNull => "null"
  | VBool b => if b then "true" else "false"
  | VNum n => pretty n
  | VNaN => "NaN"
  | VStr s => s
  | VArray elems =>
      (fix join (l : list value) : string :=
         match l with
         | [] => ""
         | x :: rest =>
             let sx := match x with VUndefined | VNull => "" | _ => to_string x end in
             match rest with [] => sx | _ => sx +:+ "," +:+ join rest end
         end) elems
  | VObject _ => "[object Object]"
  | VError name message =>
      if String.eqb message "" then name else name +:+ ": " +:+ message
  | VFunction source _ _ => source
  | VWrapper _ _ _ _ => wrapper_source
  | VCallback => callback_source
  end.

(** A pipeline step: a function of the completion callback. *)
Definition step : Type := value → M value.

(** How a run of the pipeline ends: the completion callback was called once
    with [err] (and did [r]), a step never fired its callback, or an
    exception left the pipeline. *)
Inductive ending : Type :=
| Reported (err : value) (r : result value)
| Stalled
| Escaped (e : value).

Record run : Type := Run {
  started : list nat;
  fired : list value;
  outcome : ending;
  final : world
}.

Definition prepend (i : nat) (sig : list value) (r : run) : run :=
  Run (i :: started r) (sig ++ fired r) (outcome r) (final r).

(** Modelled from the spec: [async.series] of the npm module async, which is
    not under src/.  Steps are started strictly in sequence, index 0 first; a
    step only starts after the previous step's callback has fired with no
    error; the first step whose completion signal carries an error ends the
    run and no further step is started; a step that never fires stalls the
    run, and one that throws leaves it with its exception; the overall
    completion is reported once, with the error or null.
    The run records the indices of the steps started and the completion
    signal of each. *)
Fixpoint series_from (i : nat) (tasks : list step) (callback : value → M value)
  (w : world) : run :=
  match tasks with
  | [] => let '(r, w') := callback VNull w in Run [] [] (Reported VNull r) w'
  | task :: rest =>
      match task VCallback (clear_signals w) with
      | (Throw e, w') => Run [i] [] (Escaped e) w'
      | (Ok _, w') =>
          match signals w' with
          | [] => Run [i] [] Stalled w'
          | err :: _ =>
              if truthy err
              then let '(r, w'') := callback err w' in
                   Run [i] [err] (Reported err r) w''
              else prepend i [err] (series_from (S i) rest callback w')
          end
      end
  end.

Definition series (tasks : list step) (callback : value → M value) : world → run :=
  series_from 0 tasks callback.

(** [array.map(f)] with a function that can throw. *)
Fixpoint mapM {A B} (f : A → M B) (l : list A) : M (list B) :=
  match l with
  | [] => ret []
  | x :: rest => y <~ f x;; ys <~ mapM f rest;; ret (y :: ys)
  end.

Section Pipeline.
Variable code : string → value → list value → M value.
(** Node's module loader. *)
Variable require : string → M value.

(** [createInitializerFunction(inject, initializer)]: the function of the
    callback it returns. *)
Definition createInitializerFunction (inject : value → value → M value)
  (initializer : value) : step :=
  λ callback,
    isAsync <~ determineAsync initializer;;
    if isAsync
    then
      asyncInit <~ inject initializer (VBool false);;
      if negb (is_function asyncInit)
      then apply code callback VUndefined [not_invokable]
      else
        exParamLength <~ lift (getProp asyncInit "exParamLength");;
        if is_not_one exParamLength
        then apply code callback VUndefined [extra_parameters]
        else apply code asyncInit VUndefined [callback];;; ret VUndefined
    else
      try_catch
        (inject initializer (VBool true);;;
         apply code callback VUndefined [VNull])
        (λ err, apply code callback VUndefined [err]).

(** [initAndMapInitializers(umbrellaInit, inject, func)]. *)
Definition initAndMapInitializers {A} (umbrellaInit : value)
  (inject : value → value → M value) (func : value → M A) : M (list A) :=
  descriptors <~ inject umbrellaInit (VBool true);;
  match descriptors with
  | VArray ds => mapM func ds
  | VUndefined | VNull => throw (TypeError "Cannot read property 'map' of undefined")
  | _ => throw (TypeError "map is not a function")
  end.

(** [processInitializer(env, initializerBasePath, inject, initDescriptor)]. *)
Definition processInitializer (env : value) (initializerBasePath : string)
  (inject : value → value → M value) (initDescriptor : value) : M step :=
  component <~ lift (getProp initDescriptor "component");;
  initializer <~ require (initializerBasePath +:+ to_string component);;
  variant <~ lift (getProp initializer
                     (if is_production env then "production" else "development"));;
  let initializer := or_else variant initializer in
  if negb (is_function initializer)
  then throw (incomplete_initializer (to_string component))
  else ret (createInitializerFunction inject initializer).

(** The module's export: run the initializers of the umbrella initializer in
    a sequence. *)
Definition initialize (env umbrellaInit : value) (initializerBasePath : string)
  (inject : value → value → M value) (callback : value) (w : world) : run :=
  match initAndMapInitializers umbrellaInit inject
          (processInitializer env initializerBasePath inject) w with
  | (Throw e, w') => Run [] [] (Escaped e) w'
  | (Ok initializers, w') =>
      series initializers
        (λ err, if truthy callback then apply code callback VUndefined [err]
                else ret callback)
        w'
  end.
End Pipeline.

End Initializer.

(** ** lib/umbrella.js, the revision whose init builds the steps itself *)

Module Umbrella.
Import Utilities.

(** [describeInitializer(component, dependencies)]. *)
Definition describeInitializer (component dependencies : value) : value :=
  if truthy dependencies
  then VObject [("component", component); ("dependencies", dependencies)]
  else VObject [("component", component)].

(** The array of dependency arguments [init] makes of
    [initDescriptor.dependencies]. *)
Definition initArgs (dependencies : value) : list value :=
  match dependencies with
  | VArray elems => elems
  | _ => if truthy dependencies then [dependencies] else []
  end.

Definition descriptorArgs (initDescriptor : value) : result (list value) :=
  match getProp initDescriptor "dependencies" with
  | Ok dependencies => Ok (initArgs dependencies)
  | Throw e => Throw e
  end.

Section Init.
Variable code : string → value → list value → M value.

End Init.

End Umbrella.

(** ** Conventional function texts *)

Module Signatures.
Import Utilities.

Fixpoint all_chars (p : ascii → bool) (s : string) : bool :=
  match s with
  | EmptyString => true
  | String c rest => p c && all_chars p rest
  end.

(** The characters of a parameter name: no white space, comma or closing
    parenthesis. *)
Definition is_name_char (c : ascii) : bool :=
  negb (is_space c) && negb (Ascii.eqb c ",") && negb (Ascii.eqb c ")").

Definition is_name (s : string) : bool :=
  negb (String.eqb s "") && all_chars is_name_char s.

Fixpoint join_names (names : list string) : string :=
  match names with
  | [] => ""
  | [n] => n
  | n :: rest => n +:+ ", " +:+ join_names rest
  end.

(** The text of [function (n1, n2, ...) { body }]. *)
Definition signature (names : list string) (body : string) : string :=
  "function (" +:+ join_names names +:+ ") {" +:+ body +:+ "}".

End Signatures.

(** ** A small application, to run the definitions on *)

Module Demo.

(** Behaviours: [report] returns its receiver and arguments, [ok] returns
    nothing, [boom] throws, [fire_error] and [fire_ok] call the callback they
    are given last, [order] returns three descriptors. *)
Definition boom : value := Error "boom".
Definition failure : value := Error "database unreachable".

Definition code (body : string) (this : value) (args : list value) : M value :=
  if String.eqb body "report" then
    ret (VObject [("context", this); ("args", VArray args)])
  else if String.eqb body "boom" then throw boom
  else if String.eqb body "fire_error" then
    match last args with
    | Some VCallback => signal failure
    | _ => ret VUndefined
    end
  else if String.eqb body "fire_ok" then
    match last args with
    | Some VCallback => signal VNull
    | _ => ret VUndefined
    end
  else if String.eqb body "order" then
    ret (VArray [VObject [("component", VStr "A")];
                 VObject [("component", VStr "B")];
                 VObject [("component", VStr "C")]])
  else ret VUndefined.

Definition context : value := VObject [("settings", VObject [("env", VStr "development")])].

Definition w0 : world := World ∅ ∅ [] [] ∅.

Definition abc : value :=
  VFunction "function (a, b, c) { return {context: this, args: arguments}; }" "report" [].

Definition gap : value :=
  VFunction "function (x, dep, y) { return {context: this, args: arguments}; }" "report" [].

Definition both : value :=
  VFunction "function (a, b) { return {context: this, args: arguments}; }" "report" [].

(** Registries given as plain objects. *)
Definition ab_registry : gmap string property :=
  <["a" := Data (VStr "A")]> (<["b" := Data (VStr "B")]> ∅).

Definition dep_registry : gmap string property := <["dep" := Data (VStr "D")]> ∅.

Definition zero_registry : gmap string property :=
  <["a" := Data (VNum 0)]> (<["b" := Data (VStr "B")]> ∅).

(** A bootstrap state: one user component, the internal [app] slot still
    null, [express] already there. *)
Definition w_boot : world :=
  World (<["db" := VStr "connection"]> ∅)
        (<["app" := VNull]> (<["express" := VStr "express"]> ∅))
        [] [] ∅.

Definition w_ready : world :=
  World (<["db" := VStr "connection"]> ∅)
        (<["app" := VStr "the app"]> (<["express" := VStr "express"]> ∅))
        [] [] ∅.

(** Initializers of a three-step pipeline and the loader that finds them. *)
Definition initA : value := VFunction "function (a) { }" "ok" [].
Definition initB : value := VFunction "function (b, done) { done(failure); }" "fire_error" [].
Definition initC : value := VFunction "function () { }" "ok" [].
Definition initTwo : value := VFunction "function (a, extra, done) { }" "fire_ok" [].
Definition umbrellaInit : value := VFunction "function () { return [A, B, C]; }" "order" [].

Definition require (path : string) : M value :=
  if String.eqb path "/config/initializers/A" then ret initA
  else if String.eqb path "/config/initializers/B" then ret initB
  else if String.eqb path "/config/initializers/C" then ret initC
  else throw (Error ("Cannot find module '" +:+ path +:+ "'")).

Definition inject : value → value → M value := Injector.create code context ab_registry.

End Demo.

(** ** lib/builder.js, and buildDependancyObject of lib/util.js *)

Module Builder.

(** What the builder sees of the file system under a directory: the names
    [readdirSync] lists, in its order, and which of them are directories. *)
Inductive tree : Type :=
| File
| Directory (entries : list (string * tree)).

(** [object[key] = v] on a plain object. *)
Fixpoint set_field (k : string) (v : value) (fields : list (string * value))
  : list (string * value) :=
  match fields with
  | [] => [(k, v)]
  | (k', v') :: rest =>
      if String.eqb k k' then (k, v) :: rest else (k', v') :: set_field k v rest
  end.

Definition not_a_directory (dir : string) : value :=
  Error ("ENOTDIR, not a directory '" +:+ dir +:+ "'").

Section Build.
(** Node's module loader, and [path.basename(file, path.extname(file))]. *)
Variable require : string → M value.
Variable stem : string → string.
(** The optional [process] that maps across each module. *)
Variable process : option (value → M value).

Definition processed (m : value) : M value :=
  match process with
  | Some f => f m
  | None => ret m
  end.

(** [buildDependancyObject(dir, object, process)], on the tree under [dir]. *)
Fixpoint buildDependancyObject (dir : string) (t : tree)
  (object : list (string * value)) : M (list (string * value)) :=
  match t with
  | File => throw (not_a_directory dir)
  | Directory entries =>
      (fix forEach (es : list (string * tree)) (object : list (string * value))
         : M (list (string * value)) :=
         match es with
         | [] => ret object
         | (file, child) :: rest =>
             match child with
             | Directory _ =>
                 sub <~ buildDependancyObject (dir +:+ file +:+ "/") child [];;
                 forEach rest (set_field file (VObject sub) object)
             | File =>
                 m <~ require (dir +:+ "/" +:+ file);;
                 v <~ processed m;;
                 forEach rest (set_field (stem file) v object)
             end
         end) entries object
  end.

(** The loop over the entries of one directory. *)
Fixpoint forEach (dir : string) (es : list (string * tree))
  (object : list (string * value)) : M (list (string * value)) :=
  match es with
  | [] => ret object
  | (file, child) :: rest =>
      match child with
      | Directory _ =>
          sub <~ buildDependancyObject (dir +:+ file +:+ "/") child [];;
          forEach dir rest (set_field file (VObject sub) object)
      | File =>
          m <~ require (dir +:+ "/" +:+ file);;
          v <~ processed m;;
          forEach dir rest (set_field (stem file) v object)
      end
  end.

(** The key an entry is stored under. *)
Definition entry_key (e : string * tree) : string :=
  match e.2 with
  | Directory _ => e.1
  | File => stem e.1
  end.
End Build.

(** [buildAndProcess(path, inject)] of lib/builder.js. *)
Definition buildAndProcess (require : string → M value) (stem : string → string)
  (path : string) (t : tree) (inject : value → value → M value)
  : M (list (string * value)) :=
  buildDependancyObject require stem
    (Some (λ object, if is_function object then inject object VUndefined
                     else ret object))
    path t [].

(** [buildAndInject(path, umbrella, injectComponents)] of lib/util.js. *)
Definition buildAndInject (code : string → value → list value → M value)
  (require : string → M value) (stem : string → string)
  (path : string) (t : tree) (umbrella : list (string * value))
  (injectComponents : gmap string property) : M (list (string * value)) :=
  buildDependancyObject require stem
    (Some (λ object,
       if is_function object
       then Util.injectDependencies code object umbrella injectComponents VUndefined
       else ret object))
    path t [].

End Builder.

(** ** exposeInternals of lib/utilities.js *)

Module Exposure.
Import Utilities.

(** The getter [exposeInternals] installs for a key: it returns the slot,
    whatever it holds. *)
Inductive accessor : Type :=
| Getter (key : string).

Fixpoint defineGetters (ks : list string) (obj : gmap string accessor)
  : result (gmap string accessor) :=
  match ks with
  | [] => Ok obj
  | key :: rest =>
      match obj !! key with
      | Some _ => Throw (TypeError ("Cannot redefine property: " +:+ key))
      | None => defineGetters rest (<[key := Getter key]> obj)
      end
  end.

(** [exposeInternals(api, internals)]: the object it puts at [api.internal];
    [internals] is the object the state holds. *)
Definition exposeInternals : M (gmap string accessor) :=
  λ w, (defineGetters (keys (internalComponents w)) ∅, w).

(** Property read [api.internal[k]]. *)
Definition read_internal (obj : gmap string accessor) (w : world) (k : string) : value :=
  match obj !! k with
  | Some (Getter key) => default VUndefined (internalComponents w !! key)
  | None => VUndefined
  end.

End Exposure.

(** ** lib/umbrella.js, the revision built on the injector: bootstrap and the
    phases that build and inject *)

Module Lifecycle.
Import Utilities.

Definition MIDDLEWARES_PATH : string := "/config/middlewares/".
Definition ROUTES_PATH : string := "/routes/".
Definition UMBRELLA_ROUTES_PATH : string := "/config/routes".
Definition MODEL_DIR : string := "/models/".
Definition EXPECTED_SERVER_FILENAME : string := "server.js".

Definition multiple_bootstrap : value :=
  Error "umbrella bootstrap is being called multiple times which is not allowed.".

Definition not_bootstrapped (method : string) : value :=
  Error ("umbrella has to be bootstrapped before " +:+ method +:+ "() is called.").

Definition bootstrap_warning : string :=
  "umbrella is being bootstrapped from a module other than server.js," +:+
  " this may cause unexpected behavior".

Definition no_such_directory (path : string) : value :=
  Error ("ENOENT, no such file or directory '" +:+ path +:+ "'").

(** The [internals] object as the module creates it. *)
Definition internals (express describe : value) : gmap string value :=
  list_to_map [("umbrella", VNull); ("express", express); ("app", VNull);
               ("server", VNull); ("root", VNull); ("components", VNull);
               ("middlewares", VNull); ("routes", VNull); ("describe", describe)].

(** [internals[k]] and [internals[k] = v]. *)
Definition internal (k : string) : M value :=
  λ w, (Ok (default VUndefined (internalComponents w !! k)), w).

Definition set_internal (k : string) (v : value) : M value :=
  λ w, (Ok v, World (externalComponents w) (<[k := v]> (internalComponents w))
                    (console w) (signals w) (heap w)).

(** The components object of the application becomes the external
    components of the registry. *)
Definition use_components (components : list (string * value)) : M value :=
  λ w, (Ok VUndefined, World (list_to_map components) (internalComponents w)
                             (console w) (signals w) (heap w)).

Section Phases.
Variable code : string → value → list value → M value.
(** Node's module loader and path functions, the file system under a path,
    [express()] and [http.createServer]. *)
Variable require : string → M value.
Variable stem : string → string.
Variable basename dirname : string → string.
Variable fs : string → option Builder.tree.
Variable new_app : M value.
Variable createServer : value → M value.

(** The variable [inject]: null until bootstrap, then the injector made for
    the app and the registry. *)
Definition inject (injector : option (value * gmap string property))
  (func mustInvoke : value) : M value :=
  match injector with
  | None => throw (TypeError "object is not a function")
  | Some (app, registry) => Injector.create code app registry func mustInvoke
  end.

(** [bootstrap(components)], called on [this] from the module [filename];
    it returns what [inject] is made of. *)
Definition bootstrap (this : value) (filename : string)
  (components : list (string * value)) : M (value * gmap string property) :=
  app <~ internal "app";;
  if negb (is_null app) then throw multiple_bootstrap
  else
    (if String.eqb (basename filename) EXPECTED_SERVER_FILENAME then ret VUndefined
     else console_warn bootstrap_warning);;;
    set_internal "umbrella" this;;;
    app <~ new_app;;
    set_internal "app" app;;;
    server <~ createServer app;;
    set_internal "server" server;;;
    set_internal "root" (VStr (dirname filename));;;
    set_internal "components" (VObject components);;;
    use_components components;;;
    app <~ internal "app";;
    registry <~ createInjectionComponents;;
    ret (app, registry).

(** [builder.buildAndProcess(path, inject)] on the file system. *)
Definition build (injector : option (value * gmap string property)) (path : string)
  : M (list (string * value)) :=
  match fs path with
  | None => throw (no_such_directory path)
  | Some t => Builder.buildAndProcess require stem path t (inject injector)
  end.

(** [buildMiddlewares()]. *)
Definition buildMiddlewares (this : value)
  (injector : option (value * gmap string property)) : M value :=
  app <~ internal "app";;
  if is_null app then throw (not_bootstrapped "buildMiddlewares")
  else
    root <~ internal "root";;
    built <~ build injector (Initializer.to_string root +:+ MIDDLEWARES_PATH);;
    set_internal "middlewares" (VObject built);;;
    ret this.

(** [route()]. *)
Definition route (this : value)
  (injector : option (value * gmap string property)) : M value :=
  app <~ internal "app";;
  if is_null app then throw (not_bootstrapped "route")
  else
    root <~ internal "root";;
    built <~ build injector (Initializer.to_string root +:+ ROUTES_PATH);;
    set_internal "routes" (VObject built);;;
    root <~ internal "root";;
    routes <~ require (Initializer.to_string root +:+ UMBRELLA_ROUTES_PATH);;
    inject injector routes (VBool true);;;
    ret this.

(** The loop of [bootstrapModels()] over the files of the model folder. *)
Fixpoint injectModels (injector : option (value * gmap string property))
  (modelDirAbs : string) (files : list string) : M value :=
  match files with
  | [] => ret VUndefined
  | file :: rest =>
      model <~ require (modelDirAbs +:+ file);;
      inject injector model (VBool true);;;
      injectModels injector modelDirAbs rest
  end.

(** [bootstrapModels()]. *)
Definition bootstrapModels (this : value)
  (injector : option (value * gmap string property)) : M value :=
  app <~ internal "app";;
  if is_null app then throw (not_bootstrapped "bootstrapModels")
  else
    root <~ internal "root";;
    let modelDirAbs := Initializer.to_string root +:+ MODEL_DIR in
    match fs modelDirAbs with
    | Some (Builder.Directory entries) =>
        injectModels injector modelDirAbs entries.*1;;; ret this
    | _ => ret this
    end.
End Phases.

End Lifecycle.

(** ** More of the small application *)

Module Samples.
Import Builder.

(** A behaviour table in which every function throws. *)
Definition throwing (body : string) (this : value) (args : list value) : M value :=
  throw Demo.boom.

(** The behaviours of [Demo.code], and an umbrella initializer whose second
    descriptor names a component without module. *)
Definition code (body : string) (this : value) (args : list value) : M value :=
  if String.eqb body "order_bad" then
    ret (VArray [VObject [("component", VStr "A")];
                 VObject [("component", VStr "Z")];
                 VObject [("component", VStr "C")]])
  else Demo.code body this args.

Definition named : value := VFunction "function init(app) { }" "ok" [].
Definition orderBad : value :=
  VFunction "function () { return [A, Z, C]; }" "order_bad" [].
Definition orderNeeds : value :=
  VFunction "function (settings) { return [A, B, C]; }" "order" [].
Definition needs : value := VFunction "function (a, port) { }" "ok" [].
Definition early : value := VFunction "function ($app, done) { done(); }" "fire_ok" [].


Definition done_registry : gmap string property :=
  <["b" := Data (VStr "B")]> (<["done" := Data (VStr "a component")]> ∅).

Definition app_registry : gmap string property :=
  <["$app" := InternalGetter "app"]> ∅.

(** File names without their extension, for the names used here. *)
Fixpoint has_char (x : ascii) (s : string) : bool :=
  match s with
  | EmptyString => false
  | String c rest => Ascii.eqb c x || has_char x rest
  end.

Fixpoint drop_extension (s : string) : string :=
  match s with
  | EmptyString => EmptyString
  | String c rest =>
      if Ascii.eqb c "." && negb (has_char "." rest) then EmptyString
      else String c (drop_extension rest)
  end.

Definition stem (file : string) : string :=
  match file with
  | EmptyString => EmptyString
  | String c rest => String c (drop_extension rest)
  end.

Fixpoint basename (path : string) : string :=
  match path with
  | EmptyString => EmptyString
  | String c rest =>
      if has_char "/" rest then basename rest
      else if Ascii.eqb c "/" then rest else path
  end.

Fixpoint dirname (path : string) : string :=
  match path with
  | EmptyString => EmptyString
  | String c rest => if has_char "/" rest then String c (dirname rest) else EmptyString
  end.

(** The application under /srv. *)
Definition fs (path : string) : option tree :=
  if String.eqb path "/srv/config/middlewares/" then
    Some (Directory [("auth.js", File)])
  else if String.eqb path "/srv/routes/" then
    Some (Directory [("index.js", File); ("admin", Directory [("users.js", File)])])
  else if String.eqb path "/srv/models/" then
    Some (Directory [("user.js", File)])
  else None.

Definition routes : tree :=
  Directory [("index.js", File); ("admin", Directory [("users.js", File)])].

Definition broken : tree :=
  Directory [("index.js", File); ("missing.js", File); ("admin", Directory [])].

Definition auth : value := VFunction "function ($middlewares) { }" "ok" [].
Definition index : value := VFunction "function (req, res) { }" "ok" [].
Definition users : value := VObject [("list", VStr "users")].
Definition routesConfig : value :=
  VFunction "function ($routes) { return {context: this, args: arguments}; }" "report" [].
Definition userModel : value := VFunction "function (mongoose) { }" "ok" [].
Definition variants : value :=
  VObject [("production", VStr "soon"); ("development", Demo.initA)].

Definition require (path : string) : M value :=
  if String.eqb path "/srv/config/middlewares//auth.js" then ret auth
  else if String.eqb path "/srv/routes//index.js" then ret index
  else if String.eqb path "/srv/routes/admin//users.js" then ret users
  else if String.eqb path "/srv/config/routes" then ret routesConfig
  else if String.eqb path "/srv/models/user.js" then ret userModel
  else if String.eqb path "/config/initializers/V" then ret variants
  else Demo.require path.

Definition express : value :=
  VFunction "function createApplication() { [native code] }" "express" [].
Definition describe : value :=
  VFunction "function (component) { return { component: component }; }" "describe" [].
Definition umbrella : value := VObject [].
Definition new_app : M value := ret Demo.context.
Definition createServer (app : value) : M value := ret (VObject [("handler", app)]).
Definition components : list (string * value) := [("db", VStr "connection")].

(** Before bootstrap. *)
Definition w_fresh : world := World ∅ (Lifecycle.internals express describe) [] [] ∅.

(** A user component under the $-name of an internal one, defined and
    undefined. *)
Definition w_override : world :=
  World (<["$app" := VStr "mine"]> ∅) (<["app" := VNull]> ∅) [] [] ∅.

Definition w_undefined : world :=
  World (<["$app" := VUndefined]> ∅) (<["app" := VNull]> ∅) [] [] ∅.

(** The registry [createInjectionComponents] builds in a state, and the
    accessors [exposeInternals] builds in [Demo.w_boot]. *)
Definition registry_of (w : world) : gmap string property :=
  match (Utilities.createInjectionComponents w).1 with
  | Ok reg => reg
  | Throw _ => ∅
  end.

Definition api : gmap string Exposure.accessor :=
  match (Exposure.exposeInternals Demo.w_boot).1 with
  | Ok accessors => accessors
  | Throw _ => ∅
  end.

(** The application after bootstrap from /srv/server.js: the registry
    returned and the state reached. *)
Definition booted : M (value * gmap string property) :=
  Lifecycle.bootstrap basename dirname new_app createServer umbrella
    "/srv/server.js" components.

Definition registry : gmap string property :=
  match (booted w_fresh).1 with
  | Ok (_, reg) => reg
  | Throw _ => ∅
  end.

Definition w_booted : world := (booted w_fresh).2.

Definition built_routes : list (string * value) :=
  [("index", VWrapper index Demo.context [] 2);
   ("admin", VObject [("users", users)])].

Definition w_routed : world :=
  (Lifecycle.set_internal "routes" (VObject built_routes) w_booted).2.

End Samples.

(** * Properties *)

Import Utilities Injector Initializer.

(** ** The registry scan *)

Section Scan.
Variable injectComponents : gmap string property.
Variable w : world.

Lemma scan_nil : scan injectComponents [] w = (Ok [], w).
Proof. reflexivity. Qed.

Lemma scan_cons_throw a rest e :
  read injectComponents w a = Throw e →
  scan injectComponents (a :: rest) w = (Throw e, w).
Proof. intros H. cbn. unfold bind, get. now rewrite H. Qed.

Lemma scan_cons_falsy a rest v :
  read injectComponents w a = Ok v → truthy v = false →
  scan injectComponents (a :: rest) w = (Ok [], w).
Proof. intros H Hv. cbn. unfold bind, get. now rewrite H, Hv. Qed.

Lemma scan_cons_truthy a rest v :
  read injectComponents w a = Ok v → truthy v = true →
  scan injectComponents (a :: rest) w =
  match scan injectComponents rest w with
  | (Ok vs, w') => (Ok (v :: vs), w')
  | (Throw e, w') => (Throw e, w')
  end.
Proof.
  intros H Hv. cbn. unfold bind, get. rewrite H, Hv, H.
  now destruct (scan injectComponents rest w) as [[vs|e] w'].
Qed.

(** Reading the registry leaves the state as it is. *)
Lemma scan_state args : (scan injectComponents args w).2 = w.
Proof.
  induction args as [|a rest IH]; [reflexivity|].
  destruct (read injectComponents w a) as [v|e] eqn:Hr.
  - destruct (truthy v) eqn:Hv.
    + rewrite (scan_cons_truthy _ _ _ Hr Hv).
      destruct (scan injectComponents rest w) as [[vs|e] w']; exact IH.
    + now rewrite (scan_cons_falsy _ _ _ Hr Hv).
  - now rewrite (scan_cons_throw _ _ _ Hr).
Qed.


(** What the scan collects is the values of a prefix of the parameters, each
    of them truthy, and the parameter after that prefix, if any, reads
    falsy. *)
Lemma scan_prefix args vs w' :
  scan injectComponents args w = (Ok vs, w') →
  w' = w ∧ (length vs ≤ length args)%nat ∧
  Forall2 (λ a v, read injectComponents w a = Ok v ∧ truthy v = true)
          (take (length vs) args) vs ∧
  (∀ a, args !! length vs = Some a →
        ∃ v, read injectComponents w a = Ok v ∧ truthy v = false).
Proof.
  revert vs. induction args as [|a rest IH]; intros vs Hs.
  - cbn in Hs. injection Hs as <- <-. repeat split; [done|constructor|done].
  - destruct (read injectComponents w a) as [v|e] eqn:Hr.
    + destruct (truthy v) eqn:Hv.
      * rewrite (scan_cons_truthy _ _ _ Hr Hv) in Hs.
        destruct (scan injectComponents rest w) as [[vs'|e] w''] eqn:Hrest; [|done].
        injection Hs as <- <-.
        destruct (IH vs' eq_refl) as (-> & Hlen & Hall & Hnext).
        repeat split; cbn; [lia| |exact Hnext].
        constructor; [done|exact Hall].
      * rewrite (scan_cons_falsy _ _ _ Hr Hv) in Hs. injection Hs as <- <-.
        repeat split; cbn; [lia|constructor|].
        intros b [= <-]. eauto.
    + now rewrite (scan_cons_throw _ _ _ Hr) in Hs.
Qed.




End Scan.


(** ** Names found on the prototype *)

Lemma inherited_names k :
  is_Some (inherited k) ↔
  k ∈ ["constructor"; "toString"; "toLocaleString"; "valueOf"; "hasOwnProperty";
       "isPrototypeOf"; "propertyIsEnumerable"; "__proto__"; "__defineGetter__";
       "__defineSetter__"; "__lookupGetter__"; "__lookupSetter__"].
Proof.
  split.
  - unfold inherited, object_prototype. cbn [assoc].
    repeat match goal with
           | |- context [String.eqb k ?name] =>
               destruct (String.eqb_spec k name) as [->|_];
               [intros _; apply list_elem_of_In; cbn; auto 20|]
           end.
    now intros [v Hv].
  - intros H. repeat (apply elem_of_cons in H as [->|H]; [eexists; reflexivity|]).
    now apply elem_of_nil in H.
Qed.


(** No name of the prototype starts with the sigil of the internal names. *)
Lemma inherited_sigil key : inherited ("$" +:+ key) = None.
Proof. reflexivity. Qed.

Lemma read_absent (reg : gmap string property) w k :
  reg !! k = None → read reg w k = Ok (default VUndefined (inherited k)).
Proof. intros H. unfold read. now rewrite H. Qed.

Lemma read_unbound (reg : gmap string property) w k :
  reg !! k = None → inherited k = None → read reg w k = Ok VUndefined.
Proof. intros H Hk. now rewrite (read_absent _ _ _ H), Hk. Qed.



(** ** The parameters of a function with a conventional text *)

Section SignatureProperties.
Import Signatures.
#[local] Arguments String.append !s1 s2 : simpl nomatch.

Lemma string_app_assoc (a b c : string) : (a +:+ b) +:+ c = a +:+ (b +:+ c).
Proof. induction a as [|x a IH]; [done|]. cbn. f_equal. exact IH. Qed.

Lemma line_terminator_is_space c : is_line_terminator c = true → is_space c = true.
Proof.
  unfold is_line_terminator, is_space. intros H.
  apply orb_true_iff in H as [H|H]; apply Nat.eqb_eq in H; now rewrite H.
Qed.

Lemma name_char c :
  is_name_char c = true →
  is_space c = false ∧ Ascii.eqb c "," = false ∧ Ascii.eqb c ")" = false ∧
  is_line_terminator c = false.
Proof.
  unfold is_name_char. intros H.
  apply andb_true_iff in H as [H H3]. apply andb_true_iff in H as [H1 H2].
  apply negb_true_iff in H1, H2, H3. repeat split; try done.
  destruct (is_line_terminator c) eqn:E; [|done].
  apply line_terminator_is_space in E. congruence.
Qed.

Lemma all_chars_app p a b : all_chars p (a +:+ b) = all_chars p a && all_chars p b.
Proof. induction a as [|x a IH]; cbn; [done|]. now rewrite IH, andb_assoc. Qed.

Lemma all_chars_weaken (p q : ascii → bool) s :
  (∀ c, p c = true → q c = true) → all_chars p s = true → all_chars q s = true.
Proof.
  intros Hpq. induction s as [|c s IH]; cbn; [done|].
  intros H. apply andb_true_iff in H as [Hc Hs]. now rewrite (Hpq c Hc), IH.
Qed.

Lemma is_name_spec n :
  is_name n = true → n ≠ "" ∧ all_chars is_name_char n = true.
Proof.
  unfold is_name. intros H. apply andb_true_iff in H as [H1 H2]. split; [|done].
  intros ->. discriminate.
Qed.

Lemma up_to_paren_app s rest :
  all_chars (λ c, negb (Ascii.eqb c ")") && negb (is_line_terminator c)) s = true →
  up_to_paren (s +:+ String ")" rest) = Some s.
Proof.
  induction s as [|c s IH]; cbn; [done|].
  intros H. apply andb_true_iff in H as [Hc Hs].
  apply andb_true_iff in Hc as [H1 H2]. apply negb_true_iff in H1, H2.
  now rewrite H1, H2, (IH Hs).
Qed.

Lemma skip_spaces_name n rest :
  is_name n = true → skip_spaces (n +:+ rest) = n +:+ rest.
Proof.
  intros H. apply is_name_spec in H as [Hne Hall].
  destruct n as [|c n]; [done|]. cbn in *.
  apply andb_true_iff in Hall as [Hc _]. apply name_char in Hc as (-> & _). done.
Qed.

Lemma skip_spaces_name_alone n : is_name n = true → skip_spaces n = n.
Proof.
  intros H. apply is_name_spec in H as [Hne Hall].
  destruct n as [|c n]; [done|]. cbn in *.
  apply andb_true_iff in Hall as [Hc _]. apply name_char in Hc as (-> & _). done.
Qed.

Lemma drop_trailing_spaces_app a b :
  b ≠ "" → drop_trailing_spaces b = b →
  drop_trailing_spaces (a +:+ b) = a +:+ b.
Proof.
  intros Hne Hb. induction a as [|c a IH]; cbn; [done|].
  rewrite IH. destruct (a +:+ b) eqn:E; [|done].
  destruct a; cbn in E; [|done]. congruence.
Qed.

Lemma drop_trailing_spaces_name n :
  all_chars is_name_char n = true → drop_trailing_spaces n = n.
Proof.
  induction n as [|c n IH]; cbn; [done|].
  intros H. apply andb_true_iff in H as [Hc Hn]. rewrite (IH Hn).
  apply name_char in Hc as (-> & _). now destruct n.
Qed.

Lemma trim_name pre n :
  all_chars is_space pre = true → is_name n = true → trim (pre +:+ n) = n.
Proof.
  intros Hpre Hn. unfold trim.
  assert (skip_spaces (pre +:+ n) = n) as ->.
  { induction pre as [|c pre IH]; cbn in *.
    - now apply skip_spaces_name_alone.
    - apply andb_true_iff in Hpre as [-> Hpre]. now apply IH. }
  apply drop_trailing_spaces_name. now apply is_name_spec in Hn as [_ ?].
Qed.

Lemma split_comma_plain n :
  all_chars (λ c, negb (Ascii.eqb c ",")) n = true → split_comma n = [n].
Proof.
  induction n as [|c n IH]; cbn; [done|].
  intros H. apply andb_true_iff in H as [Hc Hn]. apply negb_true_iff in Hc.
  now rewrite Hc, (IH Hn).
Qed.

Lemma split_comma_app n rest :
  all_chars (λ c, negb (Ascii.eqb c ",")) n = true →
  split_comma (n +:+ String "," rest) = n :: split_comma rest.
Proof.
  induction n as [|c n IH]; cbn; [done|].
  intros H. apply andb_true_iff in H as [Hc Hn]. apply negb_true_iff in Hc.
  now rewrite Hc, (IH Hn).
Qed.

Lemma name_no_comma n :
  all_chars is_name_char n = true →
  all_chars (λ c, negb (Ascii.eqb c ",")) n = true.
Proof.
  apply all_chars_weaken. intros c Hc. apply name_char in Hc as (_ & -> & _). done.
Qed.

Lemma space_no_comma pre :
  all_chars is_space pre = true →
  all_chars (λ c, negb (Ascii.eqb c ",")) pre = true.
Proof.
  apply all_chars_weaken. intros c Hc.
  destruct (Ascii.eqb_spec c ",") as [->|]; [discriminate|done].
Qed.

Lemma split_join pre names :
  names ≠ [] → all_chars is_space pre = true →
  Forall (λ n, is_name n = true) names →
  trim <$> split_comma (pre +:+ join_names names) = names.
Proof.
  intros Hne Hpre Hall. revert pre Hpre.
  induction Hall as [|n rest Hn Hrest IH]; [done|]. intros pre Hpre.
  pose proof (is_name_spec n Hn) as [_ Hchars].
  destruct rest as [|n2 rest].
  - cbn [join_names]. rewrite split_comma_plain.
    + cbn. now rewrite trim_name.
    + rewrite all_chars_app, (space_no_comma pre Hpre). now apply name_no_comma.
  - change (join_names (n :: n2 :: rest))
      with (n +:+ String "," (" " +:+ join_names (n2 :: rest))).
    rewrite <- string_app_assoc, split_comma_app.
    + cbn [fmap list_fmap]. rewrite trim_name by done.
      f_equal. now apply IH.
    + rewrite all_chars_app, (space_no_comma pre Hpre). now apply name_no_comma.
Qed.

Lemma join_names_chars names :
  Forall (λ n, is_name n = true) names →
  all_chars (λ c, negb (Ascii.eqb c ")") && negb (is_line_terminator c))
            (join_names names) = true.
Proof.
  induction 1 as [|n rest Hn Hrest IH]; [done|].
  assert (all_chars (λ c, negb (Ascii.eqb c ")") && negb (is_line_terminator c)) n
          = true) as Hchars.
  { apply is_name_spec in Hn as [_ Hn]. revert Hn. apply all_chars_weaken.
    intros c Hc. apply name_char in Hc as (_ & _ & -> & ->). done. }
  destruct rest as [|n2 rest]; [done|].
  change (join_names (n :: n2 :: rest)) with (n +:+ ", " +:+ join_names (n2 :: rest)).
  now rewrite !all_chars_app, Hchars, IH.
Qed.

Lemma join_names_trim names :
  Forall (λ n, is_name n = true) names → trim (join_names names) = join_names names.
Proof.
  intros Hall. destruct Hall as [|n rest Hn Hrest]; [done|].
  unfold trim.
  assert (skip_spaces (join_names (n :: rest)) = join_names (n :: rest)) as ->.
  { destruct rest; cbn [join_names].
    - now apply skip_spaces_name_alone.
    - now apply skip_spaces_name. }
  revert n Hn. induction Hrest as [|n2 rest Hn2 Hrest IH]; intros n Hn.
  - cbn. apply drop_trailing_spaces_name. now apply is_name_spec in Hn as [_ ?].
  - change (join_names (n :: n2 :: rest)) with (n +:+ ", " +:+ join_names (n2 :: rest)).
    rewrite <- string_app_assoc. apply drop_trailing_spaces_app; [|now apply IH].
    apply is_name_spec in Hn2 as [Hne _].
    destruct rest; cbn [join_names]; [done|]. now destruct n2.
Qed.

Lemma match_signature_conventional params :
  match_signature ("function (" +:+ params) = up_to_paren params.
Proof. reflexivity. Qed.

(** X1.  The signature inspector returns the declared names of a function
    with a conventional text, in order; none for a function without
    parameters. *)
Lemma getFunctionParameters_signature names body behaviour props :
  Forall (λ n, is_name n = true) names →
  getFunctionParameters (VFunction (signature names body) behaviour props) = Ok names.
Proof.
  intros Hall. unfold getFunctionParameters, toString, signature.
  rewrite match_signature_conventional.
  change (") {" +:+ body +:+ "}") with (String ")" (" {" +:+ body +:+ "}")).
  rewrite (up_to_paren_app _ _ (join_names_chars names Hall)).
  rewrite (join_names_trim names Hall).
  destruct names as [|n rest]; [done|].
  assert (String.length (join_names (n :: rest)) ≠ 0%nat) as Hlen.
  { apply Forall_cons in Hall as [Hn _]. apply is_name_spec in Hn as [Hne _].
    destruct rest; cbn [join_names]; destruct n; cbn; done. }
  apply Nat.eqb_neq in Hlen. rewrite Hlen.
  f_equal. now apply (split_join "" (n :: rest)).
Qed.

End SignatureProperties.

(** ** The injector *)

Section InjectorProperties.
Variable code : string → value → list value → M value.
Variable context : value.

(** The inject function once the parameters are known and the scan has gone
    through. *)
Lemma create_cases reg func mustInvoke args vs w :
  getFunctionParameters func = Ok args →
  scan reg args w = (Ok vs, w) →
  create code context reg func mustInvoke w =
  if (length vs <? length args)%nat
  then if truthy mustInvoke then (Throw arity_error, w)
       else (Ok (VWrapper func context vs (length args - length vs)), w)
  else apply code func context vs w.
Proof.
  intros Hp Hs. unfold create, bind, lift. rewrite Hp, Hs.
  destruct (length vs <? length args)%nat; [|reflexivity].
  now destruct (truthy mustInvoke).
Qed.

Lemma create_scan_throws reg func mustInvoke args e w :
  getFunctionParameters func = Ok args →
  scan reg args w = (Throw e, w) →
  create code context reg func mustInvoke w = (Throw e, w).
Proof. intros Hp Hs. unfold create, bind, lift. now rewrite Hp, Hs. Qed.


Lemma scan_result reg args w :
  (∃ vs, scan reg args w = (Ok vs, w)) ∨ (∃ e, scan reg args w = (Throw e, w)).
Proof.
  pose proof (scan_state reg w args) as Hw.
  destruct (scan reg args w) as [[vs|e] w']; cbn in Hw; subst w'; eauto.
Qed.


(** C2, amended.  For a callable with parameters [a; b; c] and a registry in
    which [a] and [b] read as truthy values and [c] is absent, [c] not being
    a name of [Object.prototype] either, injection with a falsy [mustInvoke]
    returns a wrapper whose [exParamLength] is 1, and calling that wrapper
    with one value [x] is calling the callable with the two values read and
    [x], bound to the injector's context. *)
Theorem curried_wrapper reg func mustInvoke a b c va vb w
  (Hparams : getFunctionParameters func = Ok [a; b; c])
  (Ha : read reg w a = Ok va) (Hta : truthy va = true)
  (Hb : read reg w b = Ok vb) (Htb : truthy vb = true)
  (Hc : reg !! c = None) (Hown : inherited c = None)
  (Hmi : truthy mustInvoke = false) :
  ∃ wrapper,
    create code context reg func mustInvoke w = (Ok wrapper, w) ∧
    is_function wrapper = true ∧
    getProp wrapper "exParamLength" = Ok (VNum 1) ∧
    ∀ this x w1,
      apply code wrapper this [x] w1 = apply code func context [va; vb; x] w1.
Proof.
  exists (VWrapper func context [va; vb] 1).
  assert (scan reg [a; b; c] w = (Ok [va; vb], w)) as Hs.
  { rewrite (scan_cons_truthy _ _ _ _ _ Ha Hta), (scan_cons_truthy _ _ _ _ _ Hb Htb).
    now rewrite (scan_cons_falsy _ _ _ _ _ (read_unbound reg w c Hc Hown) eq_refl). }
  rewrite (create_cases _ _ _ _ _ _ Hparams Hs). cbn. rewrite Hmi.
  repeat split.
Qed.

(** C3.  Once the scan has gone through: with a truthy [mustInvoke] and a
    parameter left unresolved the injector throws the arity error, without
    calling anything; with every parameter resolved, injection is, for either
    [mustInvoke], the call of the callable itself, with its own outcome; so,
    for a callable that does not itself end in that error, the arity error is
    thrown exactly when a parameter is left unresolved. *)
Theorem must_invoke_arity reg func args vs w
  (Hparams : getFunctionParameters func = Ok args)
  (Hscan : scan reg args w = (Ok vs, w)) :
  ((length vs < length args)%nat →
     ∀ mustInvoke, truthy mustInvoke = true →
       create code context reg func mustInvoke w = (Throw arity_error, w)) ∧
  (length vs = length args →
     ∀ mustInvoke,
       create code context reg func mustInvoke w = apply code func context vs w) ∧
  ((length vs = length args →
    (apply code func context vs w).1 ≠ Throw arity_error) →
   ∀ mustInvoke, truthy mustInvoke = true →
     (create code context reg func mustInvoke w).1 = Throw arity_error ↔
     (length vs < length args)%nat).
Proof.
  split; [|split].
  - intros Hlt mi Hmi. rewrite (create_cases _ _ _ _ _ _ Hparams Hscan).
    apply Nat.ltb_lt in Hlt. now rewrite Hlt, Hmi.
  - intros Heq mi. rewrite (create_cases _ _ _ _ _ _ Hparams Hscan).
    rewrite Heq, Nat.ltb_irrefl. reflexivity.
  - intros Hown mi Hmi. rewrite (create_cases _ _ _ _ _ _ Hparams Hscan).
    pose proof (scan_prefix reg w args vs w Hscan) as (_ & Hle & _).
    destruct (length vs <? length args)%nat eqn:Hlt.
    + apply Nat.ltb_lt in Hlt. rewrite Hmi. cbn. tauto.
    + apply Nat.ltb_ge in Hlt. split; [|lia].
      intros Hthrow. exfalso. apply Hown; [lia|exact Hthrow].
Qed.

(** The revision in lib/util.js is the same function, with [umbrella.app] as
    the context. *)
Lemma injectDependencies_create func umbrella reg mustInvoke :
  Util.injectDependencies code func umbrella reg mustInvoke =
  create code (default VUndefined (assoc "app" umbrella)) reg func mustInvoke.
Proof. reflexivity. Qed.

(** The falsy values. *)
Lemma falsy_values v :
  truthy v = false ↔
  v = VUndefined ∨ v = VNull ∨ v = VBool false ∨ v = VNum 0 ∨ v = VNaN ∨ v = VStr "".
Proof.
  split.
  - destruct v as [| |b|n| |s| | | | | |]; cbn; try discriminate; try tauto.
    + destruct b; [discriminate|tauto].
    + destruct (Z.eqb_spec n 0) as [->|]; [tauto|discriminate].
    + destruct (String.eqb_spec s "") as [->|]; [tauto|discriminate].
  - intros [->|[->|[->|[->|[->| ->]]]]]; reflexivity.
Qed.


End InjectorProperties.

(** ** The classification of initializers *)

Lemma indexOf_spec x args :
  (x ∈ args → 0 ≤ indexOf x args) ∧ (x ∉ args → indexOf x args = -1).
Proof.
  induction args as [|a rest [IHin IHout]]; cbn.
  - split; [intros H; inversion H|done].
  - destruct (String.eqb_spec a x) as [->|Hne].
    + split; [lia|]. intros H. exfalso. apply H. left.
    + split.
      * intros H. apply elem_of_cons in H as [->|H]; [done|].
        specialize (IHin H). destruct (indexOf x rest <? 0) eqn:E; lia.
      * intros H. rewrite IHout; [done|]. intros Hin. apply H. now right.
Qed.

Lemma indexOf_found x args :
  negb (indexOf x args + 1 =? 0) = bool_decide (x ∈ args).
Proof.
  destruct (indexOf_spec x args) as [Hin Hout].
  destruct (decide (x ∈ args)) as [H|H].
  - rewrite (bool_decide_eq_true_2 _ H). specialize (Hin H).
    destruct (indexOf x args + 1 =? 0) eqn:E; [lia|done].
  - rewrite (bool_decide_eq_false_2 _ H), (Hout H). reflexivity.
Qed.

Lemma snoc_cases {A} (l : list A) : l = [] ∨ ∃ l' x, l = l' ++ [x].
Proof. destruct l using rev_ind; eauto. Qed.

Lemma pop_snoc (l : list string) x : pop (l ++ [x]) = (Some x, l).
Proof. unfold pop. now rewrite last_snoc, removelast_last. Qed.

(** [determineAsync] on a function whose parameters are known. *)
Lemma determineAsync_cases func args w :
  getFunctionParameters func = Ok args →
  determineAsync func w =
  if bool_decide (last args = Some "done") then (Ok true, w)
  else if bool_decide ("done" ∈ removelast args)
       then (Ok false, (console_warn done_warning w).2)
       else (Ok false, w).
Proof.
  intros Hp. unfold determineAsync, bind, lift. rewrite Hp.
  destruct (snoc_cases args) as [->|(l & x & ->)]; [reflexivity|].
  assert (match l ++ [x] with
          | [] => (false, l ++ [x])
          | _ => let '(last, args') := pop (l ++ [x]) in
                 (bool_decide (last = Some "done"), args')
          end = (bool_decide (Some x = Some "done"), l)) as ->.
  { rewrite pop_snoc. now destruct l. }
  rewrite last_snoc, removelast_last, indexOf_found.
  destruct (bool_decide (Some x = Some "done")); [reflexivity|].
  now destruct (bool_decide ("done" ∈ l)).
Qed.

(** C5.  A callable is classified asynchronous exactly when its parameter
    list is not empty and ends with 'done'.  One that has 'done' among its
    parameters but not as the last one is classified synchronous and a
    warning is written, nothing else happens; one with no parameter, or
    without 'done', is classified synchronous, silently. *)
Theorem async_classification func args w
  (Hparams : getFunctionParameters func = Ok args) :
  ∃ (isAsync warned : bool),
    determineAsync func w =
      (Ok isAsync, if warned then (console_warn done_warning w).2 else w) ∧
    (isAsync = true ↔ args ≠ [] ∧ last args = Some "done") ∧
    ("done" ∈ args → last args ≠ Some "done" → isAsync = false ∧ warned = true) ∧
    (args = [] ∨ "done" ∉ args → isAsync = false ∧ warned = false).
Proof.
  rewrite (determineAsync_cases _ _ w Hparams).
  destruct (decide (last args = Some "done")) as [Hlast|Hlast].
  - rewrite (bool_decide_eq_true_2 _ Hlast). exists true, false.
    split; [done|]. split; [|split].
    + split; [|done]. intros _. split; [|done]. now intros ->.
    + done.
    + intros [->|Hno]; [done|]. exfalso. apply Hno.
      apply last_Some in Hlast as (l & ->). apply elem_of_app. right. left.
  - rewrite (bool_decide_eq_false_2 _ Hlast).
    destruct (decide ("done" ∈ removelast args)) as [Hin|Hin].
    + rewrite (bool_decide_eq_true_2 _ Hin). exists false, true.
      split; [done|]. split; [|split].
      * split; [done|]. now intros [_ ?].
      * done.
      * intros [->|Hno]; [inversion Hin|]. exfalso. apply Hno.
        destruct (snoc_cases args) as [->|(l & x & ->)]; [inversion Hin|].
        rewrite removelast_last in Hin. apply elem_of_app. now left.
    + rewrite (bool_decide_eq_false_2 _ Hin). exists false, false.
      split; [done|]. split; [|split].
      * split; [done|]. now intros [_ ?].
      * intros Hdone Hl. exfalso. apply Hin.
        destruct (snoc_cases args) as [->|(l & x & ->)]; [inversion Hdone|].
        rewrite removelast_last. rewrite last_snoc in Hl.
        apply elem_of_app in Hdone as [H|H]; [done|].
        apply list_elem_of_singleton in H. congruence.
      * done.
Qed.

(** ** The steps of the pipeline *)

Section StepProperties.
Variable code : string → value → list value → M value.

Lemma apply_callback err w : apply code VCallback VUndefined [err] w = signal err w.
Proof. reflexivity. Qed.

Lemma determineAsync_async func args w :
  getFunctionParameters func = Ok args → last args = Some "done" →
  determineAsync func w = (Ok true, w).
Proof.
  intros Hp Hl. rewrite (determineAsync_cases _ _ w Hp).
  now rewrite (bool_decide_eq_true_2 _ Hl).
Qed.

Lemma determineAsync_sync func args w :
  getFunctionParameters func = Ok args → last args ≠ Some "done" →
  determineAsync func w = (Ok false, (determineAsync func w).2).
Proof.
  intros Hp Hl. rewrite (determineAsync_cases _ _ w Hp).
  rewrite (bool_decide_eq_false_2 _ Hl).
  now destruct (bool_decide ("done" ∈ removelast args)).
Qed.

(** The step of an initializer classified asynchronous, once injection has
    returned. *)
Lemma async_step_cases inject initializer callback args asyncInit w w1 :
  getFunctionParameters initializer = Ok args →
  last args = Some "done" →
  inject initializer (VBool false) w = (Ok asyncInit, w1) →
  createInitializerFunction code inject initializer callback w =
  (if negb (is_function asyncInit)
   then apply code callback VUndefined [not_invokable]
   else exParamLength <~ lift (getProp asyncInit "exParamLength");;
        if is_not_one exParamLength
        then apply code callback VUndefined [extra_parameters]
        else apply code asyncInit VUndefined [callback];;; ret VUndefined) w1.
Proof.
  intros Hparams Hlast Hinject.
  unfold createInitializerFunction, bind at 1.
  rewrite (determineAsync_async _ _ w Hparams Hlast).
  unfold bind at 1. now rewrite Hinject.
Qed.

(** C6.  For an initializer classified asynchronous, the step looks at what
    injection (with currying allowed) returned: something that is not a
    function, and the step calls its callback with the error 'not invokable
    with callback'; a function whose [exParamLength] is not 1, and it calls
    its callback with the error 'cannot take additional parameters'; a
    function whose [exParamLength] is 1, and it calls that function with the
    callback as its one argument. *)
Theorem async_step_arity inject initializer callback args asyncInit w w1
  (Hparams : getFunctionParameters initializer = Ok args)
  (Hlast : last args = Some "done")
  (Hinject : inject initializer (VBool false) w = (Ok asyncInit, w1)) :
  (is_function asyncInit = false →
     createInitializerFunction code inject initializer callback w =
     apply code callback VUndefined [not_invokable] w1) ∧
  (is_function asyncInit = true →
   getProp asyncInit "exParamLength" ≠ Ok (VNum 1) →
     createInitializerFunction code inject initializer callback w =
     apply code callback VUndefined [extra_parameters] w1) ∧
  (is_function asyncInit = true →
   getProp asyncInit "exParamLength" = Ok (VNum 1) →
     createInitializerFunction code inject initializer callback w =
     (apply code asyncInit VUndefined [callback];;; ret VUndefined) w1).
Proof.
  rewrite (async_step_cases _ _ callback _ _ _ _ Hparams Hlast Hinject).
  split; [|split].
  - now intros ->.
  - intros Hf Hne. rewrite Hf. cbn [negb]. unfold bind at 1, lift.
    destruct (getProp asyncInit "exParamLength") as [v|e] eqn:Hg.
    + destruct v as [| | |n| | | | | | | |]; try reflexivity.
      destruct n as [|p|p]; try reflexivity.
      destruct p; try reflexivity. done.
    + now destruct asyncInit.
  - intros -> Hone. cbn [negb]. unfold bind at 1, lift. now rewrite Hone.
Qed.

(** X24.  With the injector as the inject function: a wrapper with one
    residual parameter passes the callback on to the initializer, after the
    resolved values and bound to the context; any other wrapper fails the
    step without the initializer being called. *)
Lemma async_step_with_injector context reg initializer callback args vs w :
  getFunctionParameters initializer = Ok args →
  last args = Some "done" →
  scan reg args w = (Ok vs, w) →
  (length vs < length args)%nat →
  createInitializerFunction code (create code context reg) initializer callback w =
  if (length args - length vs =? 1)%nat
  then (apply code initializer context (vs ++ [callback]);;; ret VUndefined) w
  else apply code callback VUndefined [extra_parameters] w.
Proof.
  intros Hp Hl Hs Hlt.
  assert (create code context reg initializer (VBool false) w =
          (Ok (VWrapper initializer context vs (length args - length vs)), w)) as Hc.
  { rewrite (create_cases _ _ _ _ _ _ _ _ Hp Hs).
    apply Nat.ltb_lt in Hlt. now rewrite Hlt. }
  rewrite (async_step_cases _ _ callback _ _ _ _ Hp Hl Hc). cbn.
  unfold bind at 1, lift.
  destruct (Nat.eqb_spec (length args - length vs) 1) as [E|E].
  - now rewrite E.
  - assert (Z.of_nat (length args - length vs) ≠ 1) as Hne by lia.
    destruct (Z.of_nat (length args - length vs)) as [|p|p]; try reflexivity.
    now destruct p.
Qed.


End StepProperties.

(** ** The sequence of steps *)

Lemma series_from_done tasks : ∀ i callback w err r,
  outcome (series_from i tasks callback w) = Reported err r →
  truthy err = false →
  started (series_from i tasks callback w) = seq i (length tasks) ∧
  length (fired (series_from i tasks callback w)) = length tasks ∧
  Forall (λ s, truthy s = false) (fired (series_from i tasks callback w)).
Proof.
  induction tasks as [|task rest IH]; intros i callback w err r Hout Hfalsy.
  - cbn in *. destruct (callback VNull w) as [r' w']. cbn. repeat split. constructor.
  - cbn in *. destruct (task VCallback (clear_signals w)) as [[v|e] w']; [|done].
    destruct (signals w') as [|s rest']; [done|].
    destruct (truthy s) eqn:Hs.
    + destruct (callback s w') as [r' w'']. cbn in Hout. congruence.
    + cbn in Hout. destruct (IH (S i) callback w' err r Hout Hfalsy) as (H1 & H2 & H3).
      cbn. rewrite H1, H2. repeat split. now constructor.
Qed.

(** The export of lib/initializer.js is that sequence, over the steps made of
    the descriptors. *)
Lemma initialize_series code require env umbrellaInit base inject callback w tasks w' :
  initAndMapInitializers umbrellaInit inject
    (processInitializer code require env base inject) w = (Ok tasks, w') →
  initialize code require env umbrellaInit base inject callback w =
  series tasks (λ err, if truthy callback then apply code callback VUndefined [err]
                       else ret callback) w'.
Proof. intros H. unfold initialize. now rewrite H. Qed.

Lemma series_fail_second (A B C : step) callback w rA wA sA restA rB wB e restB :
  A VCallback (clear_signals w) = (Ok rA, wA) →
  signals wA = sA :: restA → truthy sA = false →
  B VCallback (clear_signals wA) = (Ok rB, wB) →
  signals wB = e :: restB → truthy e = true →
  series [A; B; C] callback w =
    Run [0; 1]%nat [sA; e] (Reported e (callback e wB).1) (callback e wB).2.
Proof.
  intros HA HsA HokA HB HsB HerrB.
  unfold series. cbn. rewrite HA, HsA, HokA. cbn. rewrite HB, HsB, HerrB.
  now destruct (callback e wB).
Qed.

(** C4.  When the umbrella initializer returns three descriptors, whose
    steps are [A], [B] and [C], and [A] fires a signal without error and [B]
    fires the error [e], the pipeline starts step 0, then step 1, and nothing
    else, whatever [C] is, and reports [e], once, to the completion callback.
    And a run of the pipeline that reports no error has started every step,
    in order, and each of them fired a signal without error. *)
Theorem fail_fast_pipeline code require env umbrellaInit base inject callback
  dA dB dC (A B C : step) w w1 w2 w3 w4 rA wA sA restA rB wB e restB
  (Horder : inject umbrellaInit (VBool true) w = (Ok (VArray [dA; dB; dC]), w1))
  (HdA : processInitializer code require env base inject dA w1 = (Ok A, w2))
  (HdB : processInitializer code require env base inject dB w2 = (Ok B, w3))
  (HdC : processInitializer code require env base inject dC w3 = (Ok C, w4))
  (HA : A VCallback (clear_signals w4) = (Ok rA, wA))
  (HsA : signals wA = sA :: restA)
  (HokA : truthy sA = false)
  (HB : B VCallback (clear_signals wA) = (Ok rB, wB))
  (HsB : signals wB = e :: restB)
  (HerrB : truthy e = true) :
  let report := λ cb err, if truthy cb then apply code cb VUndefined [err] else ret cb in
  initialize code require env umbrellaInit base inject callback w =
    Run [0; 1]%nat [sA; e] (Reported e (report callback e wB).1)
        (report callback e wB).2 ∧
  (∀ env' umbrellaInit' base' inject' callback' w' err r,
     let run := initialize code require env' umbrellaInit' base' inject' callback' w' in
     outcome run = Reported err r → truthy err = false →
     ∃ tasks w'',
       initAndMapInitializers umbrellaInit' inject'
         (processInitializer code require env' base' inject') w' = (Ok tasks, w'') ∧
       started run = seq 0 (length tasks) ∧
       length (fired run) = length tasks ∧
       Forall (λ s, truthy s = false) (fired run)).
Proof.
  intros report. split.
  - rewrite (initialize_series _ _ _ _ _ _ _ _ [A; B; C] w4).
    + now apply (series_fail_second A B C _ w4 rA wA sA restA rB wB e restB).
    + unfold initAndMapInitializers, bind at 1. rewrite Horder. cbn [mapM].
      unfold bind at 1. rewrite HdA. unfold bind at 1, bind at 1. rewrite HdB.
      unfold bind at 1, bind at 1. now rewrite HdC.
  - intros env' umbrellaInit' base' inject' callback' w' err r run Hout Hfalsy.
    subst run. unfold initialize in *.
    destruct (initAndMapInitializers umbrellaInit' inject'
                (processInitializer code require env' base' inject') w')
      as [[tasks|e'] w''] eqn:Hmap; [|done].
    exists tasks, w''. split; [done|].
    now apply (series_from_done tasks 0%nat _ w'' err r).
Qed.

(** ** The registry of injection components *)

Lemma elem_of_keys (o : gmap string value) k : k ∈ keys o ↔ is_Some (o !! k).
Proof.
  unfold keys. rewrite list_elem_of_fmap. split.
  - intros ([k' v] & -> & H). apply elem_of_map_to_list in H. now exists v.
  - intros [v H]. exists (k, v). split; [done|]. now apply elem_of_map_to_list.
Qed.

Lemma defineExternals_other ks : ∀ obj reg k,
  defineExternals ks obj = Ok reg → k ∉ ks → reg !! k = obj !! k.
Proof.
  induction ks as [|key rest IH]; intros obj reg k Hd Hk; cbn in Hd.
  - now injection Hd as ->.
  - unfold defineProperty in Hd. destruct (obj !! key) eqn:Ho; [done|].
    apply not_elem_of_cons in Hk as [Hne Hk].
    rewrite (IH _ _ _ Hd Hk). now apply lookup_insert_ne.
Qed.

Lemma sigil_inj k1 k2 : "$" +:+ k1 = "$" +:+ k2 → k1 = k2.
Proof. intros H. cbn in H. now injection H. Qed.

Lemma defineInternals_keeps ks : ∀ obj w reg w' k p,
  defineInternals ks obj w = (Ok reg, w') → obj !! k = Some p → reg !! k = Some p.
Proof.
  induction ks as [|key rest IH]; intros obj w reg w' k p Hd Hk.
  - cbn in Hd. now injection Hd as <- _.
  - cbn [defineInternals] in Hd. unfold bind at 1, get in Hd.
    destruct (read obj w ("$" +:+ key)) as [v|e]; [|done].
    destruct (is_undefined v).
    + unfold bind at 1, lift, defineProperty in Hd.
      destruct (obj !! ("$" +:+ key)) eqn:Ho; [done|].
      apply (IH _ _ _ _ k p Hd). rewrite lookup_insert_ne; [done|congruence].
    + unfold bind at 1, console_warn in Hd. now apply (IH _ _ _ _ k p Hd).
Qed.

Lemma defineInternals_installs ks : ∀ obj w reg w' key,
  defineInternals ks obj w = (Ok reg, w') → key ∈ ks →
  obj !! ("$" +:+ key) = None →
  reg !! ("$" +:+ key) = Some (InternalGetter key).
Proof.
  induction ks as [|k rest IH]; intros obj w reg w' key Hd Hin Hfree.
  - inversion Hin.
  - cbn [defineInternals] in Hd. unfold bind at 1, get in Hd.
    destruct (decide (k = key)) as [->|Hne].
    + rewrite (read_absent _ _ _ Hfree) in Hd. cbn [is_undefined] in Hd.
      unfold bind at 1, lift, defineProperty in Hd. rewrite Hfree in Hd.
      apply (defineInternals_keeps _ _ _ _ _ _ _ Hd). apply lookup_insert_eq.
    + apply elem_of_cons in Hin as [->|Hin]; [done|].
      destruct (read obj w ("$" +:+ k)) as [v|e]; [|done].
      destruct (is_undefined v).
      * unfold bind at 1, lift, defineProperty in Hd.
        destruct (obj !! ("$" +:+ k)) eqn:Ho; [done|].
        apply (IH _ _ _ _ key Hd Hin). rewrite lookup_insert_ne; [done|].
        intros H. now apply sigil_inj in H.
      * unfold bind at 1, console_warn in Hd. now apply (IH _ _ _ _ key Hd Hin).
Qed.

(** C8.  In the registry made of the component objects, the entry of an
    internal key under its $-name (no user component having that name) is the
    throwing getter: read while the slot is null it throws the 'accessed too
    early' error; read once the slot holds something else it returns what the
    slot holds. *)
Theorem internal_slot_too_early w0 reg w1 key
  (Hcreate : createInjectionComponents w0 = (Ok reg, w1))
  (Hkey : is_Some (internalComponents w0 !! key))
  (Hfree : externalComponents w0 !! ("$" +:+ key) = None) :
  reg !! ("$" +:+ key) = Some (InternalGetter key) ∧
  ∀ w,
    (internalComponents w !! key = Some VNull →
       get reg ("$" +:+ key) w = (Throw too_early, w)) ∧
    (∀ v, internalComponents w !! key = Some v → v ≠ VNull →
       get reg ("$" +:+ key) w = (Ok v, w)).
Proof.
  assert (reg !! ("$" +:+ key) = Some (InternalGetter key)) as Hentry.
  { unfold createInjectionComponents, bind, lift in Hcreate.
    destruct (defineExternals (keys (externalComponents w0)) ∅) as [obj|e] eqn:Hext;
      [|done].
    apply (defineInternals_installs _ _ _ _ _ _ Hcreate).
    - now apply elem_of_keys.
    - rewrite (defineExternals_other _ _ _ _ Hext); [apply lookup_empty|].
      rewrite elem_of_keys, Hfree. now intros [? ?]. }
  split; [exact Hentry|]. intros w. unfold get, read. rewrite Hentry. split.
  - now intros ->.
  - intros v -> Hv. cbn. now destruct v.
Qed.

(** Injecting a callable that names an internal component whose slot is
    still null: the getter's exception leaves the injector as it is. *)
Lemma inject_too_early code context reg func mustInvoke key rest w :
  getFunctionParameters func = Ok (("$" +:+ key) :: rest) →
  reg !! ("$" +:+ key) = Some (InternalGetter key) →
  internalComponents w !! key = Some VNull →
  create code context reg func mustInvoke w = (Throw too_early, w).
Proof.
  intros Hp Hreg Hnull.
  apply (create_scan_throws _ _ _ _ _ _ _ _ Hp).
  apply scan_cons_throw. unfold read. now rewrite Hreg, Hnull.
Qed.

(** ** The dependency arguments of a descriptor *)

(** C9, amended.  The array of extra arguments [init] of lib/umbrella.js
    makes of a descriptor's [dependencies]: empty when the field is absent,
    the array itself when it is one, the one-element array of the value when
    it is any other truthy value, and empty when it is any other falsy
    value. *)
Theorem dependency_arguments fields :
  (assoc "dependencies" fields = None →
     Umbrella.descriptorArgs (VObject fields) = Ok []) ∧
  (∀ elems, assoc "dependencies" fields = Some (VArray elems) →
     Umbrella.descriptorArgs (VObject fields) = Ok elems) ∧
  (∀ d, assoc "dependencies" fields = Some d → isArray d = false →
     truthy d = true → Umbrella.descriptorArgs (VObject fields) = Ok [d]) ∧
  (∀ d, assoc "dependencies" fields = Some d → isArray d = false →
     truthy d = false → Umbrella.descriptorArgs (VObject fields) = Ok []).
Proof.
  unfold Umbrella.descriptorArgs, getProp. repeat split.
  - now intros ->.
  - now intros elems ->.
  - intros d -> Harr Ht. cbn. unfold Umbrella.initArgs. rewrite Ht. now destruct d.
  - intros d -> Harr Ht. cbn. unfold Umbrella.initArgs. rewrite Ht. now destruct d.
Qed.

(** X25.  A descriptor made by [describeInitializer] carries the arguments
    of the dependencies it was made with: the helper leaves a falsy
    [dependencies] out, and [init] makes no argument of one. *)
Lemma describeInitializer_args component dependencies :
  Umbrella.descriptorArgs (Umbrella.describeInitializer component dependencies) =
  Ok (Umbrella.initArgs dependencies).
Proof.
  unfold Umbrella.describeInitializer, Umbrella.descriptorArgs.
  destruct (truthy dependencies) eqn:Ht; cbn; [done|].
  unfold Umbrella.initArgs. rewrite Ht. now destruct dependencies.
Qed.

(** The pipeline of lib/initializer.js does not read the field at all. *)
Lemma processInitializer_ignores_dependencies code require env base inject component d w :
  processInitializer code require env base inject
    (VObject [("component", component); ("dependencies", d)]) w =
  processInitializer code require env base inject
    (VObject [("component", component)]) w.
Proof. reflexivity. Qed.

(** ** The properties at work on the small application *)


Lemma curried_wrapper_witness :
  getFunctionParameters Demo.abc = Ok ["a"; "b"; "c"] ∧
  read Demo.ab_registry Demo.w0 "a" = Ok (VStr "A") ∧
  read Demo.ab_registry Demo.w0 "b" = Ok (VStr "B") ∧
  Demo.ab_registry !! "c" = None ∧
  inherited "c" = None ∧
  ∃ wrapper,
    create Demo.code Demo.context Demo.ab_registry Demo.abc (VBool false) Demo.w0 =
      (Ok wrapper, Demo.w0) ∧
    is_function wrapper = true ∧
    getProp wrapper "exParamLength" = Ok (VNum 1) ∧
    ∀ this x w1,
      apply Demo.code wrapper this [x] w1 =
      apply Demo.code Demo.abc Demo.context [VStr "A"; VStr "B"; x] w1.
Proof.
  split; [reflexivity|]. split; [reflexivity|]. split; [reflexivity|].
  split; [reflexivity|]. split; [reflexivity|].
  exact (curried_wrapper Demo.code Demo.context Demo.ab_registry Demo.abc (VBool false)
           "a" "b" "c" (VStr "A") (VStr "B") Demo.w0
           eq_refl eq_refl eq_refl eq_refl eq_refl eq_refl eq_refl eq_refl).
Defined.


(** C2 as stated fails: the registry contains [a] and [b] and not [c], yet
    [a] is bound to 0 and the wrapper has three residual parameters. *)
Lemma curried_wrapper_counterexample :
  getFunctionParameters Demo.abc = Ok ["a"; "b"; "c"] ∧
  Demo.zero_registry !! "a" = Some (Data (VNum 0)) ∧
  Demo.zero_registry !! "b" = Some (Data (VStr "B")) ∧
  Demo.zero_registry !! "c" = None ∧
  create Demo.code Demo.context Demo.zero_registry Demo.abc (VBool false) Demo.w0 =
    (Ok (VWrapper Demo.abc Demo.context [] 3), Demo.w0) ∧
  getProp (VWrapper Demo.abc Demo.context [] 3) "exParamLength" = Ok (VNum 3) ∧
  getProp (VWrapper Demo.abc Demo.context [] 3) "exParamLength" ≠ Ok (VNum 1).
Proof. repeat split; try reflexivity. discriminate. Qed.

Lemma must_invoke_arity_witness :
  getFunctionParameters Demo.gap = Ok ["x"; "dep"; "y"] ∧
  scan Demo.dep_registry ["x"; "dep"; "y"] Demo.w0 = (Ok [], Demo.w0) ∧
  create Demo.code Demo.context Demo.dep_registry Demo.gap (VBool true) Demo.w0 =
    (Throw arity_error, Demo.w0).
Proof.
  split; [reflexivity|]. split; [reflexivity|].
  apply (proj1 (must_invoke_arity Demo.code Demo.context Demo.dep_registry Demo.gap
                  ["x"; "dep"; "y"] [] Demo.w0 eq_refl eq_refl)).
  - cbn. lia.
  - reflexivity.
Defined.



Lemma async_classification_witness :
  getFunctionParameters (VFunction "function(a, done, b) {}" "ok" []) =
    Ok ["a"; "done"; "b"] ∧
  ∃ (isAsync warned : bool),
    determineAsync (VFunction "function(a, done, b) {}" "ok" []) Demo.w0 =
      (Ok isAsync, if warned then (console_warn done_warning Demo.w0).2 else Demo.w0) ∧
    (isAsync = true ↔
       ["a"; "done"; "b"] ≠ [] ∧ last ["a"; "done"; "b"] = Some "done") ∧
    ("done" ∈ ["a"; "done"; "b"] → last ["a"; "done"; "b"] ≠ Some "done" →
       isAsync = false ∧ warned = true) ∧
    (["a"; "done"; "b"] = [] ∨ "done" ∉ ["a"; "done"; "b"] →
       isAsync = false ∧ warned = false).
Proof.
  split; [reflexivity|].
  exact (async_classification (VFunction "function(a, done, b) {}" "ok" [])
           ["a"; "done"; "b"] Demo.w0 eq_refl).
Defined.

Lemma async_step_arity_witness :
  getFunctionParameters Demo.initB = Ok ["b"; "done"] ∧
  last ["b"; "done"] = Some "done" ∧
  Demo.inject Demo.initB (VBool false) Demo.w0 =
    (Ok (VWrapper Demo.initB Demo.context [VStr "B"] 1), Demo.w0) ∧
  createInitializerFunction Demo.code Demo.inject Demo.initB VCallback Demo.w0 =
    (apply Demo.code (VWrapper Demo.initB Demo.context [VStr "B"] 1) VUndefined
       [VCallback];;; ret VUndefined) Demo.w0.
Proof.
  split; [reflexivity|]. split; [reflexivity|]. split; [reflexivity|].
  exact (proj2 (proj2 (async_step_arity Demo.code Demo.inject Demo.initB VCallback
                         ["b"; "done"] (VWrapper Demo.initB Demo.context [VStr "B"] 1)
                         Demo.w0 Demo.w0 eq_refl eq_refl eq_refl)) eq_refl eq_refl).
Defined.


Lemma fail_fast_pipeline_witness :
  let A := createInitializerFunction Demo.code Demo.inject Demo.initA in
  let B := createInitializerFunction Demo.code Demo.inject Demo.initB in
  Demo.inject Demo.umbrellaInit (VBool true) Demo.w0 =
    (Ok (VArray [VObject [("component", VStr "A")];
                 VObject [("component", VStr "B")];
                 VObject [("component", VStr "C")]]), Demo.w0) ∧
  A VCallback (clear_signals Demo.w0) = (Ok VUndefined, (signal VNull Demo.w0).2) ∧
  B VCallback (clear_signals (signal VNull Demo.w0).2) =
    (Ok VUndefined, (signal Demo.failure Demo.w0).2) ∧
  initialize Demo.code Demo.require (VStr "development") Demo.umbrellaInit
    "/config/initializers/" Demo.inject VCallback Demo.w0 =
    Run [0; 1]%nat [VNull; Demo.failure]
        (Reported Demo.failure (Ok VUndefined))
        (signal Demo.failure (signal Demo.failure Demo.w0).2).2.
Proof.
  intros A B. split; [reflexivity|]. split; [reflexivity|]. split; [reflexivity|].
  exact (proj1 (fail_fast_pipeline Demo.code Demo.require (VStr "development")
                  Demo.umbrellaInit "/config/initializers/" Demo.inject VCallback
                  (VObject [("component", VStr "A")])
                  (VObject [("component", VStr "B")])
                  (VObject [("component", VStr "C")])
                  A B (createInitializerFunction Demo.code Demo.inject Demo.initC)
                  Demo.w0 Demo.w0 Demo.w0 Demo.w0 Demo.w0
                  VUndefined (signal VNull Demo.w0).2 VNull []
                  VUndefined (signal Demo.failure Demo.w0).2 Demo.failure []
                  eq_refl eq_refl eq_refl eq_refl
                  eq_refl eq_refl eq_refl eq_refl eq_refl eq_refl)).
Defined.

(** The whole pipeline on the three descriptors of the small application. *)
Example initialize_demo :
  let r := initialize Demo.code Demo.require (VStr "development") Demo.umbrellaInit
             "/config/initializers/" Demo.inject VCallback Demo.w0 in
  started r = [0; 1]%nat ∧ fired r = [VNull; Demo.failure] ∧
  outcome r = Reported Demo.failure (Ok VUndefined).
Proof. repeat split. Qed.

Lemma internal_slot_too_early_witness :
  ∃ reg,
    createInjectionComponents Demo.w_boot = (Ok reg, Demo.w_boot) ∧
    is_Some (internalComponents Demo.w_boot !! "app") ∧
    externalComponents Demo.w_boot !! "$app" = None ∧
    get reg "$app" Demo.w_boot = (Throw too_early, Demo.w_boot) ∧
    get reg "$app" Demo.w_ready = (Ok (VStr "the app"), Demo.w_ready).
Proof.
  eexists. split; [vm_compute; reflexivity|].
  split; [eexists; reflexivity|]. split; [reflexivity|].
  split.
  - refine (proj1 (proj2 (internal_slot_too_early Demo.w_boot _ Demo.w_boot "app"
                            _ (ex_intro _ VNull eq_refl) eq_refl) Demo.w_boot) eq_refl).
    vm_compute; reflexivity.
  - refine (proj2 (proj2 (internal_slot_too_early Demo.w_boot _ Demo.w_boot "app"
                            _ (ex_intro _ VNull eq_refl) eq_refl) Demo.w_ready)
              (VStr "the app") eq_refl _).
    + vm_compute; reflexivity.
    + discriminate.
Defined.

Lemma dependency_arguments_witness :
  assoc "dependencies" [("component", VStr "db"); ("dependencies", VStr "mongoose")] =
    Some (VStr "mongoose") ∧
  isArray (VStr "mongoose") = false ∧
  truthy (VStr "mongoose") = true ∧
  Umbrella.descriptorArgs
    (VObject [("component", VStr "db"); ("dependencies", VStr "mongoose")]) =
    Ok [VStr "mongoose"].
Proof.
  split; [reflexivity|]. split; [reflexivity|]. split; [reflexivity|].
  exact (proj1 (proj2 (proj2
           (dependency_arguments
              [("component", VStr "db"); ("dependencies", VStr "mongoose")])))
           (VStr "mongoose") eq_refl eq_refl eq_refl).
Defined.

(** C9 as stated fails: the scalar 0 yields no argument, not the list of 0. *)
Lemma dependency_arguments_counterexample :
  isArray (VNum 0) = false ∧
  Umbrella.descriptorArgs
    (VObject [("component", VStr "db"); ("dependencies", VNum 0)]) = Ok [] ∧
  Umbrella.descriptorArgs
    (VObject [("component", VStr "db"); ("dependencies", VNum 0)]) ≠ Ok [VNum 0].
Proof. repeat split. discriminate. Qed.

(** * Further properties of the code *)

(** ** The signature inspector *)

Section InspectorProperties.
Import Signatures.
#[local] Arguments String.append !s1 s2 : simpl nomatch.

Lemma skip_spaces_app_spaces pre s :
  all_chars is_space pre = true → skip_spaces (pre +:+ s) = skip_spaces s.
Proof.
  induction pre as [|c pre IH]; cbn; [done|].
  intros H. apply andb_true_iff in H as [-> Hpre]. now apply IH.
Qed.

Lemma strip_prefix_app p s : strip_prefix p (p +:+ s) = Some s.
Proof.
  induction p as [|c p IH]; cbn; [now destruct s|].
  now rewrite Ascii.eqb_refl.
Qed.

Lemma match_signature_named pre sp c rest :
  all_chars is_space pre = true → all_chars is_space sp = true →
  is_space c = false → c ≠ "("%char →
  match_signature (pre +:+ "function" +:+ sp +:+ String c rest) = None.
Proof.
  intros Hpre Hsp Hc Hparen. unfold match_signature.
  rewrite (skip_spaces_app_spaces pre _ Hpre).
  change (skip_spaces ("function" +:+ sp +:+ String c rest))
    with ("function" +:+ sp +:+ String c rest).
  rewrite strip_prefix_app. cbn [mbind option_bind].
  rewrite (skip_spaces_app_spaces sp _ Hsp). cbn [skip_spaces]. rewrite Hc.
  destruct c as [[] [] [] [] [] [] [] []]; try reflexivity. done.
Qed.

(** X2.  A function whose text has anything but an opening parenthesis after
    the keyword (a named function) has no readable signature: the inspector
    throws a TypeError, and so do the classification of the function as an
    initializer and its injection, which leave the state as it is. *)
Theorem named_function_rejected code context reg mustInvoke pre sp c rest body props w
  (Hpre : all_chars is_space pre = true)
  (Hsp : all_chars is_space sp = true)
  (Hc : is_space c = false)
  (Hparen : c ≠ "("%char) :
  let func := VFunction (pre +:+ "function" +:+ sp +:+ String c rest) body props in
  getFunctionParameters func = Throw (TypeError "Cannot read property '1' of null") ∧
  determineAsync func w = (Throw (TypeError "Cannot read property '1' of null"), w) ∧
  create code context reg func mustInvoke w =
    (Throw (TypeError "Cannot read property '1' of null"), w).
Proof.
  intros func.
  assert (getFunctionParameters func =
          Throw (TypeError "Cannot read property '1' of null")) as Hp.
  { unfold getFunctionParameters, func, toString.
    now rewrite (match_signature_named pre sp c rest Hpre Hsp Hc Hparen). }
  split; [exact Hp|]. split.
  - unfold determineAsync, bind, lift. now rewrite Hp.
  - unfold create, bind, lift. now rewrite Hp.
Qed.

Lemma drop_trailing_spaces_cons c s :
  drop_trailing_spaces (String c s) =
  match drop_trailing_spaces s with
  | EmptyString => if is_space c then EmptyString else String c EmptyString
  | rest => String c rest
  end.
Proof. reflexivity. Qed.

Lemma drop_trailing_spaces_idem s :
  drop_trailing_spaces (drop_trailing_spaces s) = drop_trailing_spaces s.
Proof.
  induction s as [|c s IH]; [done|]. rewrite drop_trailing_spaces_cons.
  destruct (drop_trailing_spaces s) as [|x y] eqn:E.
  - destruct (is_space c) eqn:Hc; [done|]. cbn. now rewrite Hc.
  - now rewrite drop_trailing_spaces_cons, IH.
Qed.

Lemma skip_spaces_idem s : skip_spaces (skip_spaces s) = skip_spaces s.
Proof.
  induction s as [|c s IH]; [done|]. cbn.
  destruct (is_space c) eqn:Hc; [exact IH|]. cbn. now rewrite Hc.
Qed.

Lemma skip_spaces_trimmed s :
  skip_spaces s = s → skip_spaces (drop_trailing_spaces s) = drop_trailing_spaces s.
Proof.
  destruct s as [|c s]; [done|]. cbn.
  destruct (is_space c) eqn:Hc.
  - intros H. exfalso.
    assert (String.length (skip_spaces s) ≤ String.length s)%nat as Hle.
    { clear. induction s as [|x s IH]; cbn; [lia|].
      destruct (is_space x); cbn; lia. }
    rewrite H in Hle. cbn in Hle. lia.
  - intros _. destruct (drop_trailing_spaces s); cbn; now rewrite Hc.
Qed.

Lemma trim_idem s : trim (trim s) = trim s.
Proof.
  unfold trim.
  rewrite (skip_spaces_trimmed (skip_spaces s) (skip_spaces_idem s)).
  apply drop_trailing_spaces_idem.
Qed.

Lemma all_chars_skip_spaces p s :
  all_chars p s = true → all_chars p (skip_spaces s) = true.
Proof.
  induction s as [|c s IH]; [done|]. cbn. intros H.
  apply andb_true_iff in H as [Hc Hs].
  destruct (is_space c); [now apply IH|]. cbn. now rewrite Hc, Hs.
Qed.

Lemma all_chars_drop_trailing_spaces p s :
  all_chars p s = true → all_chars p (drop_trailing_spaces s) = true.
Proof.
  induction s as [|c s IH]; [done|]. cbn. intros H.
  apply andb_true_iff in H as [Hc Hs]. specialize (IH Hs).
  destruct (drop_trailing_spaces s).
  - destruct (is_space c); [done|]. cbn. now rewrite Hc.
  - cbn in *. now rewrite Hc, IH.
Qed.

Lemma split_comma_pieces s :
  Forall (λ piece, all_chars (λ c, negb (Ascii.eqb c ",")) piece = true)
         (split_comma s).
Proof.
  induction s as [|c s IH]; [now repeat constructor|]. cbn.
  destruct (Ascii.eqb c ",") eqn:Hc.
  - now constructor.
  - destruct (split_comma s) as [|piece pieces].
    + repeat constructor. cbn. now rewrite Hc.
    + apply Forall_cons in IH as [Hp Hps]. constructor; [|done].
      cbn. now rewrite Hc, Hp.
Qed.

(** X3.  The names the inspector returns are trimmed (trimming one again
    changes nothing) and contain no comma. *)
Theorem parameter_names_trimmed func args
  (Hparams : getFunctionParameters func = Ok args) :
  Forall (λ a, trim a = a ∧ all_chars (λ c, negb (Ascii.eqb c ",")) a = true) args.
Proof.
  unfold getFunctionParameters in Hparams.
  destruct (toString func) as [text|]; [|done].
  destruct (match_signature text) as [group|]; [|done].
  destruct (String.length (trim group) =? 0)%nat.
  - injection Hparams as <-. constructor.
  - injection Hparams as <-.
    apply Forall_fmap. eapply Forall_impl; [apply split_comma_pieces|].
    intros piece Hpiece. cbn. split; [apply trim_idem|].
    unfold trim. now apply all_chars_drop_trailing_spaces, all_chars_skip_spaces.
Qed.

End InspectorProperties.

(** ** More on the injector *)

Section MoreInjectorProperties.
Variable code : string → value → list value → M value.

(** X4.  A wrapper has no declared parameter: passed to an inject function
    again, whatever its context, registry and [mustInvoke], it is called at
    once, which calls the original callable with the dependencies resolved
    the first time alone, bound to the first context. *)
Theorem reinjected_wrapper_is_invoked context reg mustInvoke func context0 injectArgs n w :
  create code context reg (VWrapper func context0 injectArgs n) mustInvoke w =
  apply code func context0 injectArgs w.
Proof.
  unfold create, bind, lift.
  change (getFunctionParameters (VWrapper func context0 injectArgs n)) with (@Ok (list string) []).
  cbn. now rewrite app_nil_r.
Qed.

(** X5.  When a parameter is left unresolved the callable is not run: the
    outcome of the injection is the same under any behaviour of the
    application's functions, and the state is left as it is. *)
Theorem unresolved_never_invokes code' context reg func mustInvoke args vs w
  (Hparams : getFunctionParameters func = Ok args)
  (Hscan : scan reg args w = (Ok vs, w))
  (Hleft : (length vs < length args)%nat) :
  create code context reg func mustInvoke w =
  create code' context reg func mustInvoke w ∧
  (create code context reg func mustInvoke w).2 = w.
Proof.
  rewrite !(create_cases _ _ _ _ _ _ _ _ Hparams Hscan).
  apply Nat.ltb_lt in Hleft. rewrite Hleft.
  now destruct (truthy mustInvoke).
Qed.

End MoreInjectorProperties.

(** ** More on the registry of injection components *)

Lemma defineExternals_keeps ks : ∀ obj reg k p,
  defineExternals ks obj = Ok reg → obj !! k = Some p → reg !! k = Some p.
Proof.
  induction ks as [|key rest IH]; intros obj reg k p Hd Hk; cbn in Hd.
  - now injection Hd as ->.
  - unfold defineProperty in Hd. destruct (obj !! key) eqn:Ho; [done|].
    apply (IH _ _ k p Hd). rewrite lookup_insert_ne; [done|congruence].
Qed.

Lemma defineExternals_installs ks : ∀ obj reg k,
  defineExternals ks obj = Ok reg → k ∈ ks → reg !! k = Some (ExternalGetter k).
Proof.
  induction ks as [|key rest IH]; intros obj reg k Hd Hk; cbn in Hd.
  - inversion Hk.
  - unfold defineProperty in Hd. destruct (obj !! key) eqn:Ho; [done|].
    destruct (decide (key = k)) as [->|Hne].
    + apply (defineExternals_keeps _ _ _ _ _ Hd). apply lookup_insert_eq.
    + apply elem_of_cons in Hk as [->|Hk]; [done|]. now apply (IH _ _ _ Hd).
Qed.

Lemma defineExternals_total ks : ∀ obj,
  NoDup ks → (∀ k, k ∈ ks → obj !! k = None) →
  ∃ reg, defineExternals ks obj = Ok reg.
Proof.
  induction ks as [|key rest IH]; intros obj Hnd Hfree; cbn; [eauto|].
  apply NoDup_cons in Hnd as [Hnotin Hnd].
  unfold defineProperty. rewrite (Hfree key); [|left].
  apply IH; [done|]. intros k Hk.
  rewrite lookup_insert_ne; [apply Hfree; now right|]. now intros ->.
Qed.

Lemma NoDup_keys (o : gmap string value) : NoDup (keys o).
Proof. apply NoDup_fst_map_to_list. Qed.

(** The second loop only writes to the console. *)
Lemma defineInternals_state ks : ∀ obj w r w',
  defineInternals ks obj w = (r, w') →
  externalComponents w' = externalComponents w ∧
  internalComponents w' = internalComponents w ∧
  signals w' = signals w ∧ heap w' = heap w ∧
  ∃ warnings, console w' = console w ++ warnings.
Proof.
  induction ks as [|key rest IH]; intros obj w r w' Hd.
  - cbn in Hd. injection Hd as <- <-. repeat split. exists []. now rewrite app_nil_r.
  - cbn [defineInternals] in Hd. unfold bind at 1, get in Hd.
    destruct (read obj w ("$" +:+ key)) as [v|e].
    + destruct (is_undefined v).
      * unfold bind at 1, lift in Hd.
        destruct (defineProperty obj ("$" +:+ key) (InternalGetter key)) as [obj'|e].
        -- now apply IH in Hd.
        -- injection Hd as <- <-. repeat split. exists []. now rewrite app_nil_r.
      * unfold bind at 1, console_warn in Hd.
        apply IH in Hd as (H1 & H2 & H3 & H4 & warnings & H5). cbn in *.
        repeat split; try done. exists (override_warning key :: warnings).
        now rewrite H5, <- app_assoc.
    + injection Hd as <- <-. repeat split. exists []. now rewrite app_nil_r.
Qed.

Lemma read_same_components obj w w' k :
  externalComponents w' = externalComponents w →
  internalComponents w' = internalComponents w →
  read obj w' k = read obj w k.
Proof. intros He Hi. unfold read. now rewrite He, Hi. Qed.


Lemma defineInternals_warns ks : ∀ obj w reg w' key v,
  defineInternals ks obj w = (Ok reg, w') → key ∈ ks →
  obj !! ("$" +:+ key) = Some (ExternalGetter ("$" +:+ key)) →
  externalComponents w !! ("$" +:+ key) = Some v → v ≠ VUndefined →
  override_warning key ∈ console w'.
Proof.
  induction ks as [|k rest IH]; intros obj w reg w' key v Hd Hin Hobj Hext Hv.
  - inversion Hin.
  - cbn [defineInternals] in Hd. unfold bind at 1, get in Hd.
    destruct (decide (k = key)) as [->|Hne].
    + assert (read obj w ("$" +:+ key) = Ok v) as Hr
        by (unfold read; now rewrite Hobj, Hext).
      assert (is_undefined v = false) as Hu by now destruct v.
      rewrite Hr, Hu in Hd. unfold bind at 1, console_warn in Hd.
      apply defineInternals_state in Hd as (_ & _ & _ & _ & warnings & ->). cbn.
      apply elem_of_app. left. apply elem_of_app. right. left.
    + apply elem_of_cons in Hin as [->|Hin]; [done|].
      destruct (read obj w ("$" +:+ k)) as [x|e]; [|done].
      destruct (is_undefined x).
      * unfold bind at 1, lift, defineProperty in Hd.
        destruct (obj !! ("$" +:+ k)) eqn:Ho; [done|].
        apply (IH _ _ _ _ key v Hd Hin); [|done..].
        rewrite lookup_insert_ne; [done|]. intros H. now apply sigil_inj in H.
      * unfold bind at 1, console_warn in Hd.
        now apply (IH _ _ _ _ key v Hd Hin).
Qed.

(** X7.  A user component whose name is the $-name of an internal key, and
    whose value is not undefined, keeps that name: the entry is the user's
    getter, a warning about the override is written, and the read gives the
    user's component even while the internal slot is null. *)
Theorem user_component_overrides_internal w0 reg w1 key v
  (Hcreate : createInjectionComponents w0 = (Ok reg, w1))
  (Hkey : is_Some (internalComponents w0 !! key))
  (Huser : externalComponents w0 !! ("$" +:+ key) = Some v)
  (Hdefined : v ≠ VUndefined) :
  reg !! ("$" +:+ key) = Some (ExternalGetter ("$" +:+ key)) ∧
  override_warning key ∈ console w1 ∧
  ∀ w, get reg ("$" +:+ key) w =
       (Ok (default VUndefined (externalComponents w !! ("$" +:+ key))), w).
Proof.
  unfold createInjectionComponents, bind, lift in Hcreate.
  destruct (defineExternals (keys (externalComponents w0)) ∅) as [obj|e] eqn:Hext;
    [|done].
  assert (obj !! ("$" +:+ key) = Some (ExternalGetter ("$" +:+ key))) as Hobj.
  { apply (defineExternals_installs _ _ _ _ Hext). apply elem_of_keys. now rewrite Huser. }
  assert (reg !! ("$" +:+ key) = Some (ExternalGetter ("$" +:+ key))) as Hentry.
  { now apply (defineInternals_keeps _ _ _ _ _ _ _ Hcreate). }
  split; [exact Hentry|]. split.
  - apply (defineInternals_warns _ _ _ _ _ key v Hcreate); try done.
    now apply elem_of_keys.
  - intros w. unfold get, read. now rewrite Hentry.
Qed.

Lemma defineInternals_redefines ks : ∀ obj w key,
  key ∈ ks →
  obj !! ("$" +:+ key) = Some (ExternalGetter ("$" +:+ key)) →
  externalComponents w !! ("$" +:+ key) = Some VUndefined →
  ∃ e w', defineInternals ks obj w = (Throw e, w').
Proof.
  induction ks as [|k rest IH]; intros obj w key Hin Hobj Hext.
  - inversion Hin.
  - cbn [defineInternals]. unfold bind at 1, get.
    destruct (decide (k = key)) as [->|Hne].
    + assert (read obj w ("$" +:+ key) = Ok VUndefined) as ->
        by (unfold read; now rewrite Hobj, Hext).
      cbn [is_undefined]. unfold bind, lift, defineProperty. rewrite Hobj. eauto.
    + apply elem_of_cons in Hin as [->|Hin]; [done|].
      destruct (read obj w ("$" +:+ k)) as [x|e]; [|eauto].
      destruct (is_undefined x).
      * unfold bind at 1, lift, defineProperty.
        destruct (obj !! ("$" +:+ k)) eqn:Ho; [eauto|].
        apply (IH _ _ key Hin); [|done].
        rewrite lookup_insert_ne; [done|]. intros H. now apply sigil_inj in H.
      * unfold bind at 1, console_warn. now apply (IH _ _ key Hin).
Qed.

(** X8.  A user component that has the $-name of an internal key but the
    value undefined makes the construction of the registry fail: the name
    looks free, and the getter that is already there cannot be redefined. *)
Theorem undefined_user_component_breaks_registry w0 key
  (Hkey : is_Some (internalComponents w0 !! key))
  (Huser : externalComponents w0 !! ("$" +:+ key) = Some VUndefined) :
  ∃ e w1, createInjectionComponents w0 = (Throw e, w1).
Proof.
  unfold createInjectionComponents, bind, lift.
  destruct (defineExternals (keys (externalComponents w0)) ∅) as [obj|e] eqn:Hext;
    [|eauto].
  apply (defineInternals_redefines _ _ _ key); [now apply elem_of_keys| |done].
  apply (defineExternals_installs _ _ _ _ Hext). apply elem_of_keys. now rewrite Huser.
Qed.

Lemma defineInternals_total ext ks : ∀ obj w,
  externalComponents w = ext → NoDup ks →
  (∀ k, k ∈ ks →
     obj !! ("$" +:+ k) = None ∨
     (obj !! ("$" +:+ k) = Some (ExternalGetter ("$" +:+ k)) ∧
      ∃ v, ext !! ("$" +:+ k) = Some v ∧ v ≠ VUndefined)) →
  ∃ reg w', defineInternals ks obj w = (Ok reg, w') ∧
    ∀ name, is_Some (reg !! name) ↔
            is_Some (obj !! name) ∨ ∃ k, k ∈ ks ∧ name = "$" +:+ k.
Proof.
  induction ks as [|k rest IH]; intros obj w Hext Hnd Hpre.
  - exists obj, w. split; [done|]. intros name. split; [tauto|].
    intros [H|(k & Hk & _)]; [done|inversion Hk].
  - apply NoDup_cons in Hnd as [Hnotin Hnd].
    cbn [defineInternals]. unfold bind at 1, get.
    destruct (Hpre k) as [Hfree|(Hobj & v & Hv & Hdef)]; [left| |].
    + rewrite (read_absent _ _ _ Hfree). cbn [is_undefined].
      unfold bind at 1, lift, defineProperty. rewrite Hfree.
      destruct (IH (<["$" +:+ k := InternalGetter k]> obj) w Hext Hnd)
        as (reg & w' & Hd & Hnames).
      { intros k' Hk'. assert (k ≠ k') as Hne by (intros ->; done).
        rewrite lookup_insert_ne by (intros H; now apply sigil_inj in H).
        apply Hpre. now right. }
      exists reg, w'. split; [done|]. intros name. rewrite Hnames.
      rewrite lookup_insert. destruct (decide ("$" +:+ k = name)) as [<-|Hne]; split.
      * intros _. right. exists k. split; [left|done].
      * intros _. left. eauto.
      * intros [H|(k' & Hk' & ->)]; [now left|]. right. exists k'. split; [now right|done].
      * intros [H|(k' & Hk' & ->)]; [now left|].
        apply elem_of_cons in Hk' as [->|Hk']; [done|]. right. eauto.
    + assert (read obj w ("$" +:+ k) = Ok v) as ->
        by (unfold read; now rewrite Hobj, Hext, Hv).
      assert (is_undefined v = false) as -> by now destruct v.
      unfold bind at 1, console_warn.
      match goal with |- context [defineInternals rest obj ?w2] =>
        destruct (IH obj w2 Hext Hnd) as (reg & w' & Hd & Hnames) end.
      { intros k' Hk'. apply Hpre. now right. }
      exists reg, w'. split; [done|]. intros name. rewrite Hnames. split.
      * intros [H|(k' & Hk' & ->)]; [now left|]. right. exists k'. split; [now right|done].
      * intros [H|(k' & Hk' & ->)]; [now left|].
        apply elem_of_cons in Hk' as [->|Hk']; [|right; eauto].
        left. rewrite Hobj. eauto.
Qed.

(** X9.  Unless a user component has the $-name of an internal key and the
    value undefined, the registry is made: the component objects are left as
    they are, and the names the registry has are the names of the user
    components and the $-names of the internal keys, nothing else. *)
Theorem registry_names w0
  (Hdefined : ∀ key, is_Some (internalComponents w0 !! key) →
                     externalComponents w0 !! ("$" +:+ key) ≠ Some VUndefined) :
  ∃ reg w1,
    createInjectionComponents w0 = (Ok reg, w1) ∧
    externalComponents w1 = externalComponents w0 ∧
    internalComponents w1 = internalComponents w0 ∧
    ∀ name, is_Some (reg !! name) ↔
            is_Some (externalComponents w0 !! name) ∨
            ∃ key, name = "$" +:+ key ∧ is_Some (internalComponents w0 !! key).
Proof.
  unfold createInjectionComponents, bind, lift.
  destruct (defineExternals_total (keys (externalComponents w0)) ∅ (NoDup_keys _))
    as (obj & Hext); [intros; apply lookup_empty|].
  rewrite Hext.
  assert (∀ name, is_Some (obj !! name) ↔ is_Some (externalComponents w0 !! name))
    as Hobj.
  { intros name. rewrite <- elem_of_keys. split.
    - intros Hsome. destruct (decide (name ∈ keys (externalComponents w0))); [done|].
      rewrite (defineExternals_other _ _ _ _ Hext), lookup_empty in Hsome; [|done].
      now destruct Hsome.
    - intros Hin. rewrite (defineExternals_installs _ _ _ _ Hext Hin). eauto. }
  destruct (defineInternals_total (externalComponents w0)
              (keys (internalComponents w0)) obj w0 eq_refl (NoDup_keys _))
    as (reg & w1 & Hd & Hnames).
  { intros k Hk. apply elem_of_keys in Hk.
    destruct (obj !! ("$" +:+ k)) as [p|] eqn:Ho; [right|now left].
    assert ("$" +:+ k ∈ keys (externalComponents w0)) as Hin.
    { apply elem_of_keys, Hobj. rewrite Ho. eauto. }
    rewrite (defineExternals_installs _ _ _ _ Hext Hin) in Ho. injection Ho as <-.
    split; [done|]. apply elem_of_keys in Hin as [v Hv]. exists v. split; [done|].
    intros ->. now apply (Hdefined k). }
  exists reg, w1. split; [done|].
  destruct (defineInternals_state _ _ _ _ _ Hd) as (He & Hi & _).
  split; [done|]. split; [done|].
  intros name. rewrite Hnames, Hobj. split.
  - intros [H|(k & Hk & ->)]; [now left|]. right. exists k.
    split; [done|]. now apply elem_of_keys.
  - intros [H|(k & -> & Hk)]; [now left|]. right. exists k.
    split; [now apply elem_of_keys|done].
Qed.

(** ** The exposed internals *)

Lemma defineGetters_keeps ks : ∀ obj reg k p,
  Exposure.defineGetters ks obj = Ok reg → obj !! k = Some p → reg !! k = Some p.
Proof.
  induction ks as [|key rest IH]; intros obj reg k p Hd Hk; cbn in Hd.
  - now injection Hd as ->.
  - destruct (obj !! key) eqn:Ho; [done|].
    apply (IH _ _ k p Hd). rewrite lookup_insert_ne; [done|congruence].
Qed.

Lemma defineGetters_installs ks : ∀ obj reg k,
  Exposure.defineGetters ks obj = Ok reg → k ∈ ks →
  reg !! k = Some (Exposure.Getter k).
Proof.
  induction ks as [|key rest IH]; intros obj reg k Hd Hk; cbn in Hd.
  - inversion Hk.
  - destruct (obj !! key) eqn:Ho; [done|].
    destruct (decide (key = k)) as [->|Hne].
    + apply (defineGetters_keeps _ _ _ _ _ Hd). apply lookup_insert_eq.
    + apply elem_of_cons in Hk as [->|Hk]; [done|]. now apply (IH _ _ _ Hd).
Qed.

(** X10.  The two views of an internal component.  Through [api.internal]
    the read gives whatever the slot holds at the time, null included; through
    the registry, under the $-name, the read gives the same value when the
    slot is not null and throws when it is. *)
Theorem exposed_and_injected_internal w0 api w0' reg w1 key
  (Hexpose : Exposure.exposeInternals w0 = (Ok api, w0'))
  (Hcreate : createInjectionComponents w0 = (Ok reg, w1))
  (Hkey : is_Some (internalComponents w0 !! key))
  (Hfree : externalComponents w0 !! ("$" +:+ key) = None) :
  ∀ w,
    let slot := default VUndefined (internalComponents w !! key) in
    Exposure.read_internal api w key = slot ∧
    read reg w ("$" +:+ key) = if is_null slot then Throw too_early else Ok slot.
Proof.
  intros w slot. split.
  - unfold Exposure.exposeInternals in Hexpose. injection Hexpose as Hd _.
    unfold Exposure.read_internal.
    rewrite (defineGetters_installs _ _ _ key Hd); [done|]. now apply elem_of_keys.
  - unfold createInjectionComponents, bind, lift in Hcreate.
    destruct (defineExternals (keys (externalComponents w0)) ∅) as [obj|e] eqn:Hext;
      [|done].
    assert (reg !! ("$" +:+ key) = Some (InternalGetter key)) as Hentry.
    { apply (defineInternals_installs _ _ _ _ _ _ Hcreate).
      - now apply elem_of_keys.
      - rewrite (defineExternals_other _ _ _ _ Hext); [apply lookup_empty|].
        rewrite elem_of_keys, Hfree. now intros [? ?]. }
    unfold read. now rewrite Hentry.
Qed.

(** ** The directory object builder *)

Section BuilderProperties.
Import Builder.
Variable require : string → M value.
Variable stem : string → string.
Variable process : option (value → M value).

Lemma assoc_set_field_eq k v object : assoc k (set_field k v object) = Some v.
Proof.
  induction object as [|[k' v'] rest IH]; cbn.
  - now rewrite String.eqb_refl.
  - destruct (String.eqb k k') eqn:E; cbn; now rewrite ?String.eqb_refl, ?E.
Qed.

Lemma assoc_set_field_ne k k' v object :
  k ≠ k' → assoc k' (set_field k v object) = assoc k' object.
Proof.
  intros Hne. induction object as [|[k'' v''] rest IH]; cbn.
  - destruct (String.eqb_spec k' k); [congruence|done].
  - destruct (String.eqb_spec k k'') as [<-|Hk]; cbn.
    + destruct (String.eqb_spec k' k); [congruence|done].
    + now rewrite IH.
Qed.

Lemma bind_run {A B} (m : M A) (k : A → M B) w :
  bind m k w = match m w with
               | (Ok a, w') => k a w'
               | (Throw e, w') => (Throw e, w')
               end.
Proof. reflexivity. Qed.

Lemma bind_ext {A B} (m : M A) (k1 k2 : A → M B) :
  (∀ a w, k1 a w = k2 a w) → ∀ w, bind m k1 w = bind m k2 w.
Proof.
  intros H w. rewrite !bind_run. destruct (m w) as [[a|e] w']; [apply H|done].
Qed.

(** The builder on a directory is the loop over its entries. *)
Lemma build_directory dir es : ∀ object w,
  buildDependancyObject require stem process dir (Directory es) object w =
  forEach require stem process dir es object w.
Proof.
  cbn [buildDependancyObject].
  induction es as [|[file child] rest IH]; intros object w; [reflexivity|].
  cbn [forEach]. destruct child as [|sub].
  - apply bind_ext. intros m w1. apply bind_ext. intros v w2. apply IH.
  - apply bind_ext. intros o w1. apply IH.
Qed.

(** The loop on two lists of entries, one after the other. *)
Lemma forEach_app dir pre post : ∀ object w,
  forEach require stem process dir (pre ++ post) object w =
  match forEach require stem process dir pre object w with
  | (Ok object', w') => forEach require stem process dir post object' w'
  | (Throw e, w') => (Throw e, w')
  end.
Proof.
  induction pre as [|[file child] rest IH]; intros object w; [reflexivity|].
  cbn [forEach app]. destruct child as [|sub].
  - rewrite !bind_run.
    destruct (require (dir +:+ "/" +:+ file) w) as [[m|e] w1]; [|done].
    rewrite !bind_run. destruct (processed process m w1) as [[v|e] w2]; [|done].
    apply IH.
  - rewrite !bind_run.
    destruct (buildDependancyObject require stem process (dir +:+ file +:+ "/")
                (Directory sub) [] w) as [[o|e] w1]; [|done].
    apply IH.
Qed.

(** A key that no entry is stored under keeps what the object had. *)
Lemma forEach_keeps dir es k : ∀ object w object' w',
  forEach require stem process dir es object w = (Ok object', w') →
  Forall (λ e, entry_key stem e ≠ k) es →
  assoc k object' = assoc k object.
Proof.
  induction es as [|[file child] rest IH]; intros object w object' w' Hf Hkeys.
  - cbn in Hf. now injection Hf as <- _.
  - apply Forall_cons in Hkeys as [Hk Hkeys]. cbn [forEach] in Hf.
    destruct child as [|sub]; unfold bind at 1 in Hf.
    + destruct (require (dir +:+ "/" +:+ file) w) as [[m|e] w1]; [|done].
      unfold bind at 1 in Hf. destruct (processed process m w1) as [[v|e] w2]; [|done].
      rewrite (IH _ _ _ _ Hf Hkeys). now apply assoc_set_field_ne.
    + destruct (buildDependancyObject require stem process (dir +:+ file +:+ "/")
                  (Directory sub) [] w) as [[o|e] w1]; [|done].
      rewrite (IH _ _ _ _ Hf Hkeys). now apply assoc_set_field_ne.
Qed.

(** X11.  The built object mirrors the directory.  When the build of a
    directory succeeds, an entry that no later entry shares its key with is
    found in the object under that key: a file under its name without
    extension, as its module, loaded from the directory's path, a slash and
    the name, and passed through the process; a sub-directory under its
    name, as the object built of it under the path extended by the name. *)
Theorem built_object_mirrors_directory dir es object0 w0 object w' pre file child post
  (Hbuild : buildDependancyObject require stem process dir (Directory es) object0 w0 =
            (Ok object, w'))
  (Hsplit : es = pre ++ (file, child) :: post)
  (Hlast : Forall (λ e, entry_key stem e ≠ entry_key stem (file, child)) post) :
  match child with
  | File =>
      ∃ w1 m w2 v w3,
        require (dir +:+ "/" +:+ file) w1 = (Ok m, w2) ∧
        processed process m w2 = (Ok v, w3) ∧
        assoc (stem file) object = Some v
  | Directory sub =>
      ∃ w1 built w2,
        buildDependancyObject require stem process (dir +:+ file +:+ "/")
          (Directory sub) [] w1 = (Ok built, w2) ∧
        assoc file object = Some (VObject built)
  end.
Proof.
  rewrite build_directory, Hsplit, forEach_app in Hbuild.
  destruct (forEach require stem process dir pre object0 w0) as [[o1|e] w1]; [|done].
  cbn [forEach] in Hbuild. destruct child as [|sub]; unfold bind at 1 in Hbuild.
  - destruct (require (dir +:+ "/" +:+ file) w1) as [[m|e] w2] eqn:Hreq; [|done].
    unfold bind at 1 in Hbuild.
    destruct (processed process m w2) as [[v|e] w3] eqn:Hproc; [|done].
    exists w1, m, w2, v, w3. repeat split; try done.
    rewrite (forEach_keeps _ _ (stem file) _ _ _ _ Hbuild Hlast).
    apply assoc_set_field_eq.
  - destruct (buildDependancyObject require stem process (dir +:+ file +:+ "/")
                (Directory sub) [] w1) as [[o|e] w2] eqn:Hsub; [|done].
    exists w1, o, w2. split; [done|].
    rewrite (forEach_keeps _ _ file _ _ _ _ Hbuild Hlast). apply assoc_set_field_eq.
Qed.

(** X12.  A module that fails to load aborts the whole build: once the
    entries before it are done, the exception of the loader is the outcome of
    the build, whatever entries come after it. *)
Theorem load_failure_aborts_build dir pre file post object0 w0 object1 w1 e w2
  (Hpre : forEach require stem process dir pre object0 w0 = (Ok object1, w1))
  (Hload : require (dir +:+ "/" +:+ file) w1 = (Throw e, w2)) :
  buildDependancyObject require stem process dir
    (Directory (pre ++ (file, File) :: post)) object0 w0 = (Throw e, w2).
Proof.
  rewrite build_directory, forEach_app, Hpre. cbn [forEach].
  rewrite bind_run. now rewrite Hload.
Qed.

End BuilderProperties.

(** X13.  What [buildAndProcess] stores for the module of a file: a module
    that is not a function, unchanged, without consulting the injector; a
    function, what the injector returns for it; and as the injector is called
    without [mustInvoke], a function with an unresolved parameter is stored
    as the wrapper for its remaining parameters, never refused. *)
Theorem builder_stores_wrapper code require stem context reg dir file m w w1
  (Hload : require (dir +:+ "/" +:+ file) w = (Ok m, w1)) :
  let built :=
    Builder.buildAndProcess require stem dir (Builder.Directory [(file, Builder.File)])
      (create code context reg) w in
  (is_function m = false → built = (Ok [(stem file, m)], w1)) ∧
  (is_function m = true →
     built = match create code context reg m VUndefined w1 with
             | (Ok v, w2) => (Ok [(stem file, v)], w2)
             | (Throw e, w2) => (Throw e, w2)
             end) ∧
  (∀ args vs,
     getFunctionParameters m = Ok args → scan reg args w1 = (Ok vs, w1) →
     (length vs < length args)%nat →
     built = (Ok [(stem file, VWrapper m context vs (length args - length vs))], w1)).
Proof.
  intros built.
  assert (built =
          match (if is_function m then create code context reg m VUndefined
                 else ret m) w1 with
          | (Ok v, w2) => (Ok [(stem file, v)], w2)
          | (Throw e, w2) => (Throw e, w2)
          end) as Hbuilt.
  { unfold built, Builder.buildAndProcess. rewrite build_directory.
    cbn [Builder.forEach]. rewrite bind_run, Hload, bind_run.
    unfold Builder.processed.
    now destruct ((if is_function m then create code context reg m VUndefined
                   else ret m) w1) as [[v|e] w2]. }
  split; [|split].
  - intros Hm. now rewrite Hbuilt, Hm.
  - intros Hm. now rewrite Hbuilt, Hm.
  - intros args vs Hparams Hscan Hleft. rewrite Hbuilt.
    assert (is_function m = true) as ->.
    { unfold getFunctionParameters in Hparams. now destruct m. }
    rewrite (create_cases _ _ _ _ _ _ _ _ Hparams Hscan).
    apply Nat.ltb_lt in Hleft. now rewrite Hleft.
Qed.

(** ** More on the pipeline *)

Section MorePipelineProperties.
Variable code : string → value → list value → M value.
Variable require : string → M value.

Lemma mapM_app_throw {A B} (f : A → M B) pre d post : ∀ ys w w1 e w2,
  mapM f pre w = (Ok ys, w1) → f d w1 = (Throw e, w2) →
  mapM f (pre ++ d :: post) w = (Throw e, w2).
Proof.
  induction pre as [|x pre IH]; intros ys w w1 e w2 Hpre Hd.
  - cbn in Hpre. injection Hpre as _ <-. cbn. rewrite bind_run. now rewrite Hd.
  - cbn [mapM app] in *. rewrite bind_run in *.
    destruct (f x w) as [[y|e'] w']; [|done]. rewrite bind_run in *.
    destruct (mapM f pre w') as [[ys'|e'] w''] eqn:Hrest; [|done].
    injection Hpre as _ <-. now rewrite (IH _ _ _ _ _ Hrest Hd).
Qed.

(** X14.  Every descriptor is turned into its step before any step is
    started: when a descriptor cannot be (its module does not load, or what is
    chosen of it is not a function), the run ends with that exception, no
    step has been started, not even those of the descriptors before it, and
    the completion callback is not called. *)
Theorem bad_descriptor_starts_nothing env umbrellaInit base inject callback
  pre d post steps w w1 w2 e w3
  (Horder : inject umbrellaInit (VBool true) w = (Ok (VArray (pre ++ d :: post)), w1))
  (Hpre : mapM (processInitializer code require env base inject) pre w1 = (Ok steps, w2))
  (Hbad : processInitializer code require env base inject d w2 = (Throw e, w3)) :
  initialize code require env umbrellaInit base inject callback w =
  Run [] [] (Escaped e) w3.
Proof.
  unfold initialize, initAndMapInitializers. rewrite bind_run, Horder.
  now rewrite (mapM_app_throw _ _ _ _ _ _ _ _ _ Hpre Hbad).
Qed.

(** X15.  The variant of an initializer module.  In production the module's
    [production] property is looked at, anywhere else its [development]
    property; a truthy one is chosen over the module, a falsy or absent one
    falls back to the module.  What is chosen must be a function: a truthy
    variant that is not one fails the descriptor with the 'incomplete
    initializer' error naming the component, even when the module itself is a
    function.  Every environment other than 'production' is treated alike. *)
Theorem variant_selection env env' base inject component m variant w w1
  (Hload : require (base +:+ to_string component) w = (Ok m, w1))
  (Hvariant : getProp m (if is_production env then "production" else "development") =
              Ok variant) :
  let descriptor := VObject [("component", component)] in
  (truthy variant = true → is_function variant = false →
     processInitializer code require env base inject descriptor w =
     (Throw (incomplete_initializer (to_string component)), w1)) ∧
  (truthy variant = true → is_function variant = true →
     processInitializer code require env base inject descriptor w =
     (Ok (createInitializerFunction code inject variant), w1)) ∧
  (truthy variant = false → is_function m = true →
     processInitializer code require env base inject descriptor w =
     (Ok (createInitializerFunction code inject m), w1)) ∧
  (is_production env = false → is_production env' = false →
     processInitializer code require env' base inject descriptor w =
     processInitializer code require env base inject descriptor w).
Proof.
  intros descriptor.
  assert (∀ env0, processInitializer code require env0 base inject descriptor w =
          match getProp m (if is_production env0 then "production" else "development")
          with
          | Ok variant0 =>
              if negb (is_function (or_else variant0 m))
              then (Throw (incomplete_initializer (to_string component)), w1)
              else (Ok (createInitializerFunction code inject (or_else variant0 m)), w1)
          | Throw e => (Throw e, w1)
          end) as Hcases.
  { intros env0. unfold processInitializer, descriptor.
    change (getProp (VObject [("component", component)]) "component")
      with (@Ok value component).
    rewrite bind_run. cbn [lift]. rewrite bind_run, Hload, bind_run. cbn [lift].
    destruct (getProp m (if is_production env0 then "production" else "development"))
      as [variant0|e]; [|done].
    now destruct (negb (is_function (or_else variant0 m))). }
  split; [|split; [|split]].
  - intros Ht Hf. rewrite Hcases, Hvariant. unfold or_else. now rewrite Ht, Hf.
  - intros Ht Hf. rewrite Hcases, Hvariant. unfold or_else. now rewrite Ht, Hf.
  - intros Ht Hf. rewrite Hcases, Hvariant. unfold or_else. now rewrite Ht, Hf.
  - intros He He'. rewrite !Hcases. now rewrite He, He'.
Qed.

(** X16.  When the umbrella initializer cannot be invoked, or returns
    something that is not an array, nothing is run: with a parameter of it
    left unresolved the run ends with the arity error, with a value returned
    that is not an array and has no [map] method it ends with a TypeError; no
    step is started and the completion callback is not called. *)
Theorem order_failure_starts_nothing env umbrellaInit base context reg callback w :
  (∀ args vs,
     getFunctionParameters umbrellaInit = Ok args →
     scan reg args w = (Ok vs, w) → (length vs < length args)%nat →
     initialize code require env umbrellaInit base (create code context reg) callback w =
     Run [] [] (Escaped arity_error) w) ∧
  (∀ v w1,
     create code context reg umbrellaInit (VBool true) w = (Ok v, w1) →
     isArray v = false →
     (∀ f, getProp v "map" = Ok f → is_function f = false) →
     ∃ message,
       initialize code require env umbrellaInit base (create code context reg) callback w =
       Run [] [] (Escaped (TypeError message)) w1).
Proof.
  split.
  - intros args vs Hparams Hscan Hleft.
    unfold initialize, initAndMapInitializers. rewrite bind_run.
    rewrite (create_cases _ _ _ _ _ _ _ _ Hparams Hscan).
    apply Nat.ltb_lt in Hleft. now rewrite Hleft.
  - intros v w1 Hrun Harr _.
    unfold initialize, initAndMapInitializers. rewrite bind_run, Hrun.
    destruct v; try done; eauto.
Qed.

(** X17.  A component named like the completion callback.  When every
    parameter of an asynchronous initializer resolves, the last one to the
    component the registry has under that name, the initializer is run at
    once with that component in the place of the callback; if it returns
    something that is not a function, the step then calls its callback with
    the 'not invokable' error. *)
Theorem done_component_collision context reg initializer callback args vs w r w1
  (Hparams : getFunctionParameters initializer = Ok args)
  (Hlast : last args = Some "done")
  (Hscan : scan reg args w = (Ok vs, w))
  (Hall : length vs = length args)
  (Hrun : apply code initializer context vs w = (Ok r, w1))
  (Hvalue : is_function r = false) :
  createInitializerFunction code (create code context reg) initializer callback w =
  apply code callback VUndefined [not_invokable] w1.
Proof.
  assert (create code context reg initializer (VBool false) w = (Ok r, w1)) as Hc.
  { rewrite (create_cases _ _ _ _ _ _ _ _ Hparams Hscan).
    now rewrite Hall, Nat.ltb_irrefl. }
  rewrite (async_step_cases _ _ _ callback _ _ _ _ Hparams Hlast Hc).
  now rewrite Hvalue.
Qed.

(** X18.  A synchronous initializer with an unresolved parameter is not
    run: the step, given the pipeline's callback, returns normally and the
    signal it fires is the arity error. *)
Theorem sync_unresolved_signals_arity context reg initializer args vs w
  (Hparams : getFunctionParameters initializer = Ok args)
  (Hlast : last args ≠ Some "done")
  (Hscan : scan reg args (determineAsync initializer w).2 =
           (Ok vs, (determineAsync initializer w).2))
  (Hleft : (length vs < length args)%nat) :
  ∀ code',
    createInitializerFunction code' (create code' context reg) initializer VCallback w =
    (Ok VUndefined, (signal arity_error (determineAsync initializer w).2).2).
Proof.
  intros code'. unfold createInitializerFunction. rewrite bind_run.
  rewrite (determineAsync_sync _ _ w Hparams Hlast).
  unfold try_catch. rewrite bind_run.
  rewrite (create_cases _ _ _ _ _ _ _ _ Hparams Hscan).
  apply Nat.ltb_lt in Hleft. now rewrite Hleft.
Qed.

(** X19.  The asynchronous branch has no handler: when the injection of an
    asynchronous initializer throws (a component read too early, or the
    initializer itself when it is run), the step throws that exception and
    does not call its callback, whatever the callback is.  As the first step
    of a sequence, whatever steps follow it, the exception leaves the
    sequence: no other step is started and nothing is reported. *)
Theorem async_exception_escapes inject initializer callback report args w e w1
  (Hparams : getFunctionParameters initializer = Ok args)
  (Hlast : last args = Some "done")
  (Hthrow : inject initializer (VBool false) w = (Throw e, w1)) :
  createInitializerFunction code inject initializer callback w = (Throw e, w1) ∧
  (∀ rest w0, clear_signals w0 = w →
     series (createInitializerFunction code inject initializer :: rest) report w0 =
     Run [0%nat] [] (Escaped e) w1).
Proof.
  assert (∀ cb, createInitializerFunction code inject initializer cb w =
                (Throw e, w1)) as Hstep.
  { intros cb. unfold createInitializerFunction. rewrite bind_run.
    rewrite (determineAsync_async _ _ _ Hparams Hlast).
    rewrite bind_run. now rewrite Hthrow. }
  split; [apply Hstep|]. intros rest w0 Hw0. unfold series. cbn [series_from].
  now rewrite Hw0, Hstep.
Qed.

End MorePipelineProperties.

(** ** Bootstrap and the phases *)

Lemma assoc_list_to_map k (fields : list (string * value)) :
  (list_to_map fields : gmap string value) !! k = assoc k fields.
Proof.
  induction fields as [|[k' v] rest IH]; cbn; [apply lookup_empty|].
  rewrite lookup_insert. destruct (String.eqb_spec k k') as [->|Hne].
  - now rewrite decide_True.
  - rewrite decide_False; [exact IH|congruence].
Qed.

Section LifecycleProperties.
Import Lifecycle.
Variable code : string → value → list value → M value.
Variable require : string → M value.
Variable stem : string → string.
Variable basename dirname : string → string.
Variable fs : string → option Builder.tree.
Variable new_app : M value.
Variable createServer : value → M value.

(** What a successful bootstrap leaves behind. *)
Lemma bootstrap_result this filename components w0 app reg w1 :
  bootstrap basename dirname new_app createServer this filename components w0 =
    (Ok (app, reg), w1) →
  is_null (default VUndefined (internalComponents w0 !! "app")) = true ∧
  ∃ w, createInjectionComponents w = (Ok reg, w1) ∧
       externalComponents w = list_to_map components ∧
       default VUndefined (internalComponents w !! "app") = app ∧
       internalComponents w !! "root" = Some (VStr (dirname filename)) ∧
       internalComponents w !! "components" = Some (VObject components).
Proof.
  unfold bootstrap. rewrite bind_run. unfold internal at 1.
  destruct (is_null (default VUndefined (internalComponents w0 !! "app"))); [|done].
  cbn [negb]. intros H. split; [done|].
  rewrite bind_run in H.
  destruct ((if String.eqb (basename filename) EXPECTED_SERVER_FILENAME
             then ret VUndefined else console_warn bootstrap_warning) w0)
    as [[x|e] wa]; [|done].
  rewrite bind_run in H. unfold set_internal at 1 in H.
  rewrite bind_run in H. destruct (new_app _) as [[a|e] wb]; [|done].
  rewrite bind_run in H. unfold set_internal at 1 in H.
  rewrite bind_run in H. destruct (createServer a _) as [[srv|e] wc]; [|done].
  rewrite bind_run in H. unfold set_internal at 1 in H.
  rewrite bind_run in H. unfold set_internal at 1 in H.
  rewrite bind_run in H. unfold set_internal at 1 in H.
  rewrite bind_run in H. unfold use_components at 1 in H.
  rewrite bind_run in H. unfold internal at 1 in H.
  rewrite bind_run in H.
  match type of H with context [createInjectionComponents ?w] =>
    destruct (createInjectionComponents w) as [[r|e] wd] eqn:Hc; [|done];
    exists w end.
  cbn in H. injection H as <- <- <-. split; [exact Hc|]. cbn.
  split; [done|]. split; [done|]. split; now simplify_map_eq.
Qed.

Lemma createInjectionComponents_state w0 r w1 :
  createInjectionComponents w0 = (r, w1) →
  externalComponents w1 = externalComponents w0 ∧
  internalComponents w1 = internalComponents w0.
Proof.
  unfold createInjectionComponents. rewrite bind_run. unfold lift.
  destruct (defineExternals (keys (externalComponents w0)) ∅) as [obj|e].
  - intros H. now apply defineInternals_state in H as (? & ? & _).
  - now intros [= _ <-].
Qed.

Lemma internal_entry w0 reg w1 key :
  createInjectionComponents w0 = (Ok reg, w1) →
  is_Some (internalComponents w0 !! key) →
  externalComponents w0 !! ("$" +:+ key) = None →
  reg !! ("$" +:+ key) = Some (InternalGetter key).
Proof.
  intros Hcreate Hkey Hfree.
  unfold createInjectionComponents, bind, lift in Hcreate.
  destruct (defineExternals (keys (externalComponents w0)) ∅) as [obj|e] eqn:Hext;
    [|done].
  apply (defineInternals_installs _ _ _ _ _ _ Hcreate).
  - now apply elem_of_keys.
  - rewrite (defineExternals_other _ _ _ _ Hext); [apply lookup_empty|].
    rewrite elem_of_keys, Hfree. now intros [? ?].
Qed.

(** X20.  Bootstrap happens once.  After a bootstrap that succeeded (the app
    made by express being an object), any further bootstrap throws the
    'called multiple times' error and changes nothing; the components given
    are the external components of the registry, and, unless a user
    component takes the name, [$root] reads as the directory of the
    bootstrapping module and [$components] as the components object. *)
Theorem bootstrap_only_once this filename components w0 app reg w1
  (Hboot : bootstrap basename dirname new_app createServer this filename components w0 =
           (Ok (app, reg), w1))
  (Happ : is_null app = false) :
  (∀ this' filename' components',
     bootstrap basename dirname new_app createServer this' filename' components' w1 =
     (Throw multiple_bootstrap, w1)) ∧
  externalComponents w1 = list_to_map components ∧
  (assoc "$root" components = None →
     get reg "$root" w1 = (Ok (VStr (dirname filename)), w1)) ∧
  (assoc "$components" components = None →
     get reg "$components" w1 = (Ok (VObject components), w1)).
Proof.
  apply bootstrap_result in Hboot as (_ & w & Hcreate & Hext & Happ' & Hroot & Hcomp).
  destruct (createInjectionComponents_state _ _ _ Hcreate) as (He & Hi).
  split; [|split; [|split]].
  - intros this' filename' components'. unfold bootstrap. rewrite bind_run.
    unfold internal at 1. now rewrite Hi, Happ', Happ.
  - now rewrite He.
  - intros Hfree. unfold get, read.
    assert (reg !! "$root" = Some (InternalGetter "root")) as ->.
    { apply (internal_entry _ _ _ "root" Hcreate); [now rewrite Hroot|].
      rewrite Hext. apply (eq_trans (assoc_list_to_map _ _) Hfree). }
    now rewrite Hi, Hroot.
  - intros Hfree. unfold get, read.
    assert (reg !! "$components" = Some (InternalGetter "components")) as ->.
    { apply (internal_entry _ _ _ "components" Hcreate); [now rewrite Hcomp|].
      rewrite Hext. apply (eq_trans (assoc_list_to_map _ _) Hfree). }
    now rewrite Hi, Hcomp.
Qed.

(** X21.  The middlewares are not there while they are being built: a
    middleware module that asks for [$middlewares] makes buildMiddlewares
    throw the 'accessed too early' error, the slot being filled only once
    every module is built. *)
Theorem middlewares_unavailable_to_middlewares this app reg wc wc' w root file rest
  m params w'
  (Hcreate : createInjectionComponents wc = (Ok reg, wc'))
  (Hinternal : is_Some (internalComponents wc !! "middlewares"))
  (Hfree : externalComponents wc !! "$middlewares" = None)
  (Happ : is_null (default VUndefined (internalComponents w !! "app")) = false)
  (Hroot : internalComponents w !! "root" = Some (VStr root))
  (Hfs : fs (root +:+ MIDDLEWARES_PATH) =
         Some (Builder.Directory ((file, Builder.File) :: rest)))
  (Hload : require ((root +:+ MIDDLEWARES_PATH) +:+ "/" +:+ file) w = (Ok m, w'))
  (Hparams : getFunctionParameters m = Ok ("$middlewares" :: params))
  (Hslot : internalComponents w' !! "middlewares" = Some VNull) :
  buildMiddlewares code require stem fs this (Some (app, reg)) w = (Throw too_early, w').
Proof.
  assert (reg !! "$middlewares" = Some (InternalGetter "middlewares")) as Hentry
    by exact (internal_entry _ _ _ "middlewares" Hcreate Hinternal Hfree).
  unfold buildMiddlewares. rewrite bind_run. unfold internal at 1. rewrite Happ.
  rewrite bind_run. unfold internal at 1. rewrite Hroot. cbn [default from_option id].
  rewrite bind_run. unfold build. cbn [Initializer.to_string]. rewrite Hfs.
  unfold Builder.buildAndProcess. rewrite build_directory. cbn [Builder.forEach].
  rewrite bind_run, Hload, bind_run. unfold Builder.processed, inject.
  assert (is_function m = true) as ->.
  { unfold getFunctionParameters in Hparams. now destruct m. }
  assert (create code app reg m VUndefined w' = (Throw too_early, w')) as ->; [|done].
  apply (create_scan_throws _ _ _ _ _ _ _ _ Hparams).
  apply scan_cons_throw. unfold read. now rewrite Hentry, Hslot.
Qed.

(** X22.  The routes configuration gets the routes: route() fills the
    [routes] slot with the object built of the routes directory before it
    injects the routes configuration, so a configuration whose parameter is
    [$routes] is called, bound to the app, with that object. *)
Theorem routes_config_receives_routes this app reg wc wc' w root t built w2 config w3
  (Hcreate : createInjectionComponents wc = (Ok reg, wc'))
  (Hinternal : is_Some (internalComponents wc !! "routes"))
  (Hfree : externalComponents wc !! "$routes" = None)
  (Happ : is_null (default VUndefined (internalComponents w !! "app")) = false)
  (Hroot : internalComponents w !! "root" = Some (VStr root))
  (Hfs : fs (root +:+ ROUTES_PATH) = Some t)
  (Hbuild : Builder.buildAndProcess require stem (root +:+ ROUTES_PATH) t
              (create code app reg) w = (Ok built, w2))
  (Hroot2 : internalComponents w2 !! "root" = Some (VStr root))
  (Hload : require (root +:+ UMBRELLA_ROUTES_PATH)
             (set_internal "routes" (VObject built) w2).2 = (Ok config, w3))
  (Hparams : getFunctionParameters config = Ok ["$routes"])
  (Hslot : internalComponents w3 !! "routes" = Some (VObject built)) :
  route code require stem fs this (Some (app, reg)) w =
  match apply code config app [VObject built] w3 with
  | (Ok _, w4) => (Ok this, w4)
  | (Throw e, w4) => (Throw e, w4)
  end.
Proof.
  assert (reg !! "$routes" = Some (InternalGetter "routes")) as Hentry
    by exact (internal_entry _ _ _ "routes" Hcreate Hinternal Hfree).
  unfold route. rewrite bind_run. unfold internal at 1. rewrite Happ.
  rewrite bind_run. unfold internal at 1. rewrite Hroot. cbn [default from_option id].
  rewrite bind_run. unfold build. cbn [Initializer.to_string]. rewrite Hfs.
  change (inject code (Some (app, reg))) with (create code app reg).
  rewrite Hbuild. rewrite bind_run.
  destruct (set_internal "routes" (VObject built) w2) as [r ws] eqn:Hset.
  assert (r = Ok (VObject built) ∧
          internalComponents ws !! "root" = Some (VStr root)) as [-> Hroot3].
  { unfold set_internal in Hset. injection Hset as <- <-. cbn.
    split; [done|]. now rewrite lookup_insert_ne. }
  rewrite bind_run. unfold internal at 1. rewrite Hroot3. cbn [default from_option id].
  cbn [Initializer.to_string]. cbn [snd] in Hload. rewrite bind_run, Hload, bind_run.
  unfold inject.
  assert (scan reg ["$routes"] w3 = (Ok [VObject built], w3)) as Hscan.
  { assert (read reg w3 "$routes" = Ok (VObject built)) as Hr.
    { unfold read. now rewrite Hentry, Hslot. }
    now rewrite (scan_cons_truthy _ _ _ _ _ Hr eq_refl). }
  rewrite (create_cases _ _ _ _ _ _ _ _ Hparams Hscan). cbn.
  now destruct (apply code config app [VObject built] w3) as [[x|e] w4].
Qed.

(** X23.  The models.  Without a model folder bootstrapModels does nothing;
    with one, each file's module is injected with [mustInvoke], so a model
    bootstrapper with a parameter that does not resolve throws the arity
    error, and the files after it are not loaded. *)
Theorem models_must_invoke this app reg w root :
  is_null (default VUndefined (internalComponents w !! "app")) = false →
  internalComponents w !! "root" = Some (VStr root) →
  (fs (root +:+ MODEL_DIR) = None →
     bootstrapModels code require fs this (Some (app, reg)) w = (Ok this, w)) ∧
  (∀ file child rest m w1 args vs,
     fs (root +:+ MODEL_DIR) = Some (Builder.Directory ((file, child) :: rest)) →
     require ((root +:+ MODEL_DIR) +:+ file) w = (Ok m, w1) →
     getFunctionParameters m = Ok args →
     scan reg args w1 = (Ok vs, w1) → (length vs < length args)%nat →
     bootstrapModels code require fs this (Some (app, reg)) w = (Throw arity_error, w1)).
Proof.
  intros Happ Hroot.
  assert (bootstrapModels code require fs this (Some (app, reg)) w =
          match fs (root +:+ MODEL_DIR) with
          | Some (Builder.Directory entries) =>
              (injectModels code require (Some (app, reg)) (root +:+ MODEL_DIR)
                 entries.*1;;; ret this) w
          | _ => (Ok this, w)
          end) as ->.
  { unfold bootstrapModels. rewrite bind_run. unfold internal at 1. rewrite Happ.
    rewrite bind_run. unfold internal at 1. rewrite Hroot.
    cbn [default from_option id Initializer.to_string].
    now destruct (fs (root +:+ MODEL_DIR)) as [[]|]. }
  split.
  - now intros ->.
  - intros file child rest m w1 args vs -> Hload Hparams Hscan Hleft.
    rewrite bind_run. cbn [fmap list_fmap fst injectModels].
    rewrite bind_run, Hload, bind_run. unfold inject.
    rewrite (create_cases _ _ _ _ _ _ _ _ Hparams Hscan).
    apply Nat.ltb_lt in Hleft. now rewrite Hleft.
Qed.

End LifecycleProperties.

(** ** The further properties at work on the small application *)

Lemma getFunctionParameters_signature_witness :
  Forall (λ n, Signatures.is_name n = true) ["app"; "db"] ∧
  getFunctionParameters
    (VFunction (Signatures.signature ["app"; "db"] " return 1; ") "ok" []) =
  Ok ["app"; "db"].
Proof.
  split; [repeat constructor|].
  apply getFunctionParameters_signature. repeat constructor.
Defined.

Lemma named_function_rejected_witness :
  getFunctionParameters Samples.named =
    Throw (TypeError "Cannot read property '1' of null") ∧
  create Demo.code Demo.context Demo.ab_registry Samples.named (VBool false) Demo.w0 =
    (Throw (TypeError "Cannot read property '1' of null"), Demo.w0).
Proof.
  pose proof (named_function_rejected Demo.code Demo.context Demo.ab_registry
                (VBool false) "" " " "i" "nit(app) { }" "ok" [] Demo.w0
                eq_refl eq_refl eq_refl ltac:(discriminate)) as (H1 & _ & H3).
  split; [exact H1|exact H3].
Defined.

Lemma parameter_names_trimmed_witness :
  getFunctionParameters Demo.abc = Ok ["a"; "b"; "c"] ∧
  Forall (λ a, trim a = a ∧ Signatures.all_chars (λ c, negb (Ascii.eqb c ",")) a = true)
         ["a"; "b"; "c"].
Proof.
  split; [reflexivity|].
  exact (parameter_names_trimmed Demo.abc ["a"; "b"; "c"] eq_refl).
Defined.

Lemma unresolved_never_invokes_witness :
  getFunctionParameters Demo.gap = Ok ["x"; "dep"; "y"] ∧
  scan Demo.dep_registry ["x"; "dep"; "y"] Demo.w0 = (Ok [], Demo.w0) ∧
  create Demo.code Demo.context Demo.dep_registry Demo.gap (VBool false) Demo.w0 =
  create Samples.throwing Demo.context Demo.dep_registry Demo.gap (VBool false) Demo.w0.
Proof.
  split; [reflexivity|]. split; [reflexivity|].
  exact (proj1 (unresolved_never_invokes Demo.code Samples.throwing Demo.context
                  Demo.dep_registry Demo.gap (VBool false) ["x"; "dep"; "y"] []
                  Demo.w0 eq_refl eq_refl ltac:(cbn; lia))).
Defined.


Lemma user_component_overrides_internal_witness :
  createInjectionComponents Samples.w_override =
    (Ok (Samples.registry_of Samples.w_override),
     (createInjectionComponents Samples.w_override).2) ∧
  override_warning "app" ∈ console (createInjectionComponents Samples.w_override).2 ∧
  get (Samples.registry_of Samples.w_override) "$app" Samples.w_override =
    (Ok (VStr "mine"), Samples.w_override).
Proof.
  assert (createInjectionComponents Samples.w_override =
          (Ok (Samples.registry_of Samples.w_override),
           (createInjectionComponents Samples.w_override).2)) as Hcreate
    by (vm_compute; reflexivity).
  split; [exact Hcreate|].
  exact ((λ H, conj (proj1 (proj2 H)) (proj2 (proj2 H) Samples.w_override))
           (user_component_overrides_internal Samples.w_override _ _ "app"
              (VStr "mine") Hcreate (ex_intro _ VNull eq_refl) eq_refl
              ltac:(discriminate))).
Defined.

Lemma undefined_user_component_breaks_registry_witness :
  is_Some (internalComponents Samples.w_undefined !! "app") ∧
  externalComponents Samples.w_undefined !! "$app" = Some VUndefined ∧
  ∃ e w1, createInjectionComponents Samples.w_undefined = (Throw e, w1).
Proof.
  split; [eexists; reflexivity|]. split; [reflexivity|].
  exact (undefined_user_component_breaks_registry Samples.w_undefined "app"
           (ex_intro _ VNull eq_refl) eq_refl).
Defined.

Lemma registry_names_witness :
  ∃ reg w1,
    createInjectionComponents Demo.w_boot = (Ok reg, w1) ∧
    externalComponents w1 = externalComponents Demo.w_boot ∧
    internalComponents w1 = internalComponents Demo.w_boot ∧
    ∀ name, is_Some (reg !! name) ↔
            is_Some (externalComponents Demo.w_boot !! name) ∨
            ∃ key, name = "$" +:+ key ∧
                   is_Some (internalComponents Demo.w_boot !! key).
Proof.
  apply registry_names. intros key _ H. cbn in H.
  rewrite lookup_insert in H. destruct (decide ("db" = "$" +:+ key)) as [E|_].
  - cbn in E. discriminate E.
  - rewrite lookup_empty in H. discriminate H.
Defined.

Lemma exposed_and_injected_internal_witness :
  Exposure.exposeInternals Demo.w_boot = (Ok Samples.api, Demo.w_boot) ∧
  createInjectionComponents Demo.w_boot =
    (Ok (Samples.registry_of Demo.w_boot), Demo.w_boot) ∧
  Exposure.read_internal Samples.api Demo.w_boot "app" = VNull ∧
  read (Samples.registry_of Demo.w_boot) Demo.w_boot "$app" = Throw too_early ∧
  Exposure.read_internal Samples.api Demo.w_ready "app" = VStr "the app" ∧
  read (Samples.registry_of Demo.w_boot) Demo.w_ready "$app" = Ok (VStr "the app").
Proof.
  assert (Exposure.exposeInternals Demo.w_boot = (Ok Samples.api, Demo.w_boot))
    as Hexpose by (vm_compute; reflexivity).
  assert (createInjectionComponents Demo.w_boot =
          (Ok (Samples.registry_of Demo.w_boot), Demo.w_boot)) as Hcreate
    by (vm_compute; reflexivity).
  split; [exact Hexpose|]. split; [exact Hcreate|].
  exact ((λ H, conj (proj1 (H Demo.w_boot))
                 (conj (proj2 (H Demo.w_boot))
                    (conj (proj1 (H Demo.w_ready)) (proj2 (H Demo.w_ready)))))
           (exposed_and_injected_internal Demo.w_boot _ Demo.w_boot _ Demo.w_boot "app"
              Hexpose Hcreate (ex_intro _ VNull eq_refl) eq_refl)).
Defined.

Lemma built_object_mirrors_directory_witness :
  Builder.buildDependancyObject Samples.require Samples.stem None "/srv/routes/"
    Samples.routes [] Demo.w0 =
    (Ok [("index", Samples.index); ("admin", VObject [("users", Samples.users)])],
     Demo.w0) ∧
  ∃ w1 built w2,
    Builder.buildDependancyObject Samples.require Samples.stem None
      ("/srv/routes/" +:+ "admin" +:+ "/")
      (Builder.Directory [("users.js", Builder.File)]) [] w1 = (Ok built, w2) ∧
    assoc "admin"
      [("index", Samples.index); ("admin", VObject [("users", Samples.users)])] =
    Some (VObject built).
Proof.
  split; [reflexivity|].
  exact (built_object_mirrors_directory Samples.require Samples.stem None
           "/srv/routes/"
           [("index.js", Builder.File);
            ("admin", Builder.Directory [("users.js", Builder.File)])]
           [] Demo.w0 _ Demo.w0
           [("index.js", Builder.File)] "admin"
           (Builder.Directory [("users.js", Builder.File)]) []
           eq_refl eq_refl (Forall_nil_2 _)).
Defined.

Lemma load_failure_aborts_build_witness :
  Builder.forEach Samples.require Samples.stem None "/srv/routes/"
    [("index.js", Builder.File)] [] Demo.w0 = (Ok [("index", Samples.index)], Demo.w0) ∧
  Builder.buildDependancyObject Samples.require Samples.stem None "/srv/routes/"
    Samples.broken [] Demo.w0 =
  (Throw (Error "Cannot find module '/srv/routes//missing.js'"), Demo.w0).
Proof.
  split; [reflexivity|].
  exact (load_failure_aborts_build Samples.require Samples.stem None "/srv/routes/"
           [("index.js", Builder.File)] "missing.js" [("admin", Builder.Directory [])]
           [] Demo.w0 [("index", Samples.index)] Demo.w0
           (Error "Cannot find module '/srv/routes//missing.js'") Demo.w0
           eq_refl eq_refl).
Defined.

Lemma builder_stores_wrapper_witness :
  Samples.require ("/srv/routes/" +:+ "/" +:+ "index.js") Demo.w0 =
    (Ok Samples.index, Demo.w0) ∧
  Builder.buildAndProcess Samples.require Samples.stem "/srv/routes/"
    (Builder.Directory [("index.js", Builder.File)])
    (create Demo.code Demo.context Demo.ab_registry) Demo.w0 =
  (Ok [("index", VWrapper Samples.index Demo.context [] 2)], Demo.w0).
Proof.
  split; [reflexivity|].
  exact (proj2 (proj2 (builder_stores_wrapper Demo.code Samples.require Samples.stem
                         Demo.context Demo.ab_registry "/srv/routes/" "index.js"
                         Samples.index Demo.w0 Demo.w0 eq_refl))
           ["req"; "res"] [] eq_refl eq_refl ltac:(cbn; lia)).
Defined.

Lemma bad_descriptor_starts_nothing_witness :
  let inject := create Samples.code Demo.context Demo.ab_registry in
  inject Samples.orderBad (VBool true) Demo.w0 =
    (Ok (VArray ([VObject [("component", VStr "A")]] ++
                 VObject [("component", VStr "Z")] ::
                 [VObject [("component", VStr "C")]])), Demo.w0) ∧
  initialize Samples.code Samples.require (VStr "development") Samples.orderBad
    "/config/initializers/" inject VCallback Demo.w0 =
  Run [] [] (Escaped (Error "Cannot find module '/config/initializers/Z'")) Demo.w0.
Proof.
  intros inject. split; [reflexivity|].
  exact (bad_descriptor_starts_nothing Samples.code Samples.require (VStr "development")
           Samples.orderBad "/config/initializers/" inject VCallback
           [VObject [("component", VStr "A")]] (VObject [("component", VStr "Z")])
           [VObject [("component", VStr "C")]]
           [createInitializerFunction Samples.code inject Demo.initA]
           Demo.w0 Demo.w0 Demo.w0
           (Error "Cannot find module '/config/initializers/Z'") Demo.w0
           eq_refl eq_refl eq_refl).
Defined.

Lemma variant_selection_witness :
  Samples.require ("/config/initializers/" +:+ to_string (VStr "V")) Demo.w0 =
    (Ok Samples.variants, Demo.w0) ∧
  getProp Samples.variants "production" = Ok (VStr "soon") ∧
  processInitializer Demo.code Samples.require (VStr "production")
    "/config/initializers/" Demo.inject (VObject [("component", VStr "V")]) Demo.w0 =
  (Throw (incomplete_initializer "V"), Demo.w0).
Proof.
  split; [reflexivity|]. split; [reflexivity|].
  exact (proj1 (variant_selection Demo.code Samples.require (VStr "production")
                  (VStr "test") "/config/initializers/" Demo.inject (VStr "V")
                  Samples.variants (VStr "soon") Demo.w0 Demo.w0 eq_refl eq_refl)
           eq_refl eq_refl).
Defined.

Lemma order_failure_starts_nothing_witness :
  getFunctionParameters Samples.orderNeeds = Ok ["settings"] ∧
  scan Demo.ab_registry ["settings"] Demo.w0 = (Ok [], Demo.w0) ∧
  initialize Demo.code Demo.require (VStr "development") Samples.orderNeeds
    "/config/initializers/" (create Demo.code Demo.context Demo.ab_registry)
    VCallback Demo.w0 =
  Run [] [] (Escaped arity_error) Demo.w0.
Proof.
  split; [reflexivity|]. split; [reflexivity|].
  exact (proj1 (order_failure_starts_nothing Demo.code Demo.require (VStr "development")
                  Samples.orderNeeds "/config/initializers/" Demo.context
                  Demo.ab_registry VCallback Demo.w0)
           ["settings"] [] eq_refl eq_refl ltac:(cbn; lia)).
Defined.

Lemma done_component_collision_witness :
  getFunctionParameters Demo.initB = Ok ["b"; "done"] ∧
  scan Samples.done_registry ["b"; "done"] Demo.w0 =
    (Ok [VStr "B"; VStr "a component"], Demo.w0) ∧
  apply Demo.code Demo.initB Demo.context [VStr "B"; VStr "a component"] Demo.w0 =
    (Ok VUndefined, Demo.w0) ∧
  createInitializerFunction Demo.code
    (create Demo.code Demo.context Samples.done_registry) Demo.initB VCallback Demo.w0 =
  apply Demo.code VCallback VUndefined [not_invokable] Demo.w0.
Proof.
  split; [reflexivity|]. split; [reflexivity|]. split; [reflexivity|].
  exact (done_component_collision Demo.code Demo.context Samples.done_registry
           Demo.initB VCallback ["b"; "done"] [VStr "B"; VStr "a component"]
           Demo.w0 VUndefined Demo.w0 eq_refl eq_refl eq_refl eq_refl eq_refl eq_refl).
Defined.

Lemma sync_unresolved_signals_arity_witness :
  getFunctionParameters Samples.needs = Ok ["a"; "port"] ∧
  scan Demo.ab_registry ["a"; "port"] Demo.w0 = (Ok [VStr "A"], Demo.w0) ∧
  createInitializerFunction Samples.throwing
    (create Samples.throwing Demo.context Demo.ab_registry) Samples.needs VCallback
    Demo.w0 =
  (Ok VUndefined, (signal arity_error Demo.w0).2).
Proof.
  split; [reflexivity|]. split; [reflexivity|].
  exact (sync_unresolved_signals_arity Demo.context Demo.ab_registry Samples.needs
           ["a"; "port"] [VStr "A"] Demo.w0 eq_refl ltac:(discriminate) eq_refl
           ltac:(cbn; lia) Samples.throwing).
Defined.

Lemma async_exception_escapes_witness :
  getFunctionParameters Samples.early = Ok ["$app"; "done"] ∧
  create Demo.code Demo.context Samples.app_registry Samples.early (VBool false)
    Demo.w_boot = (Throw too_early, Demo.w_boot) ∧
  series [createInitializerFunction Demo.code
            (create Demo.code Demo.context Samples.app_registry) Samples.early;
          createInitializerFunction Demo.code
            (create Demo.code Demo.context Samples.app_registry) Demo.initC]
    signal Demo.w_boot =
  Run [0%nat] [] (Escaped too_early) Demo.w_boot.
Proof.
  split; [reflexivity|]. split; [reflexivity|].
  exact (proj2 (async_exception_escapes Demo.code
                  (create Demo.code Demo.context Samples.app_registry) Samples.early
                  VCallback signal ["$app"; "done"] Demo.w_boot too_early Demo.w_boot
                  eq_refl eq_refl eq_refl)
           [createInitializerFunction Demo.code
              (create Demo.code Demo.context Samples.app_registry) Demo.initC]
           Demo.w_boot eq_refl).
Defined.

Lemma async_step_with_injector_witness :
  getFunctionParameters Demo.initB = Ok ["b"; "done"] ∧
  scan Demo.ab_registry ["b"; "done"] Demo.w0 = (Ok [VStr "B"], Demo.w0) ∧
  createInitializerFunction Demo.code (create Demo.code Demo.context Demo.ab_registry)
    Demo.initB VCallback Demo.w0 =
  (apply Demo.code Demo.initB Demo.context ([VStr "B"] ++ [VCallback]);;;
   ret VUndefined) Demo.w0.
Proof.
  split; [reflexivity|]. split; [reflexivity|].
  exact (async_step_with_injector Demo.code Demo.context Demo.ab_registry Demo.initB
           VCallback ["b"; "done"] [VStr "B"] Demo.w0 eq_refl eq_refl eq_refl
           ltac:(cbn; lia)).
Defined.

Lemma bootstrap_only_once_witness :
  Samples.booted Samples.w_fresh =
    (Ok (Demo.context, Samples.registry), Samples.w_booted) ∧
  Lifecycle.bootstrap Samples.basename Samples.dirname Samples.new_app
    Samples.createServer Samples.umbrella "/srv/server.js" [] Samples.w_booted =
    (Throw Lifecycle.multiple_bootstrap, Samples.w_booted) ∧
  get Samples.registry "$root" Samples.w_booted = (Ok (VStr "/srv"), Samples.w_booted).
Proof.
  assert (Samples.booted Samples.w_fresh =
          (Ok (Demo.context, Samples.registry), Samples.w_booted)) as Hboot
    by (vm_compute; reflexivity).
  split; [exact Hboot|].
  exact ((λ H, conj (proj1 H Samples.umbrella "/srv/server.js" [])
                    (proj1 (proj2 (proj2 H)) eq_refl))
           (bootstrap_only_once Samples.basename Samples.dirname Samples.new_app
              Samples.createServer Samples.umbrella "/srv/server.js"
              Samples.components Samples.w_fresh Demo.context Samples.registry
              Samples.w_booted Hboot eq_refl)).
Defined.

Lemma middlewares_unavailable_to_middlewares_witness :
  createInjectionComponents Samples.w_booted =
    (Ok Samples.registry, Samples.w_booted) ∧
  Lifecycle.buildMiddlewares Samples.code Samples.require Samples.stem Samples.fs
    Samples.umbrella (Some (Demo.context, Samples.registry)) Samples.w_booted =
  (Throw too_early, Samples.w_booted).
Proof.
  assert (createInjectionComponents Samples.w_booted =
          (Ok Samples.registry, Samples.w_booted)) as Hcreate
    by (vm_compute; reflexivity).
  split; [exact Hcreate|].
  refine (middlewares_unavailable_to_middlewares Samples.code Samples.require
            Samples.stem Samples.fs Samples.umbrella Demo.context Samples.registry
            Samples.w_booted Samples.w_booted Samples.w_booted
            "/srv" "auth.js" [] Samples.auth [] Samples.w_booted
            Hcreate (ex_intro _ VNull _) _ _ _ _ _ _ _);
    vm_compute; reflexivity.
Defined.

Lemma routes_config_receives_routes_witness :
  createInjectionComponents Samples.w_booted =
    (Ok Samples.registry, Samples.w_booted) ∧
  apply Samples.code Samples.routesConfig Demo.context
    [VObject Samples.built_routes] Samples.w_routed =
    (Ok (VObject [("context", Demo.context);
                  ("args", VArray [VObject Samples.built_routes])]),
     Samples.w_routed) ∧
  Lifecycle.route Samples.code Samples.require Samples.stem Samples.fs
    Samples.umbrella (Some (Demo.context, Samples.registry)) Samples.w_booted =
  (Ok Samples.umbrella, Samples.w_routed).
Proof.
  assert (createInjectionComponents Samples.w_booted =
          (Ok Samples.registry, Samples.w_booted)) as Hcreate
    by (vm_compute; reflexivity).
  assert (apply Samples.code Samples.routesConfig Demo.context
            [VObject Samples.built_routes] Samples.w_routed =
          (Ok (VObject [("context", Demo.context);
                        ("args", VArray [VObject Samples.built_routes])]),
           Samples.w_routed))
    as Hcall by (vm_compute; reflexivity).
  split; [exact Hcreate|]. split; [exact Hcall|].
  etransitivity;
    [refine (routes_config_receives_routes Samples.code Samples.require
               Samples.stem Samples.fs Samples.umbrella Demo.context Samples.registry
               Samples.w_booted Samples.w_booted Samples.w_booted
               "/srv" Samples.routes Samples.built_routes
               Samples.w_booted Samples.routesConfig Samples.w_routed
               Hcreate (ex_intro _ VNull _) _ _ _ _ _ _ _ _ _);
     vm_compute; reflexivity|].
  reflexivity.
Defined.

Lemma models_must_invoke_witness :
  scan Samples.registry ["mongoose"] Samples.w_booted = (Ok [], Samples.w_booted) ∧
  Lifecycle.bootstrapModels Samples.code Samples.require Samples.fs
    Samples.umbrella (Some (Demo.context, Samples.registry)) Samples.w_booted =
  (Throw arity_error, Samples.w_booted).
Proof.
  assert (scan Samples.registry ["mongoose"] Samples.w_booted =
          (Ok [], Samples.w_booted)) as Hscan by (vm_compute; reflexivity).
  split; [exact Hscan|].
  refine (proj2 (models_must_invoke Samples.code Samples.require Samples.fs
                   Samples.umbrella Demo.context Samples.registry Samples.w_booted
                   "/srv" _ _)
            "user.js" Builder.File [] Samples.userModel Samples.w_booted
            ["mongoose"] [] _ _ _ Hscan _);
    vm_compute; reflexivity.
Defined.
